(** * Batched acquisition for the OPX: a shallow embedding of
    [labcore/instruments/opx/sweep.py]

    The development follows the source file top-down: the module globals and
    [QuantumMachineContext], the two [DataSpec] subclasses, then the methods
    of [RecordOPXdata] ([__init__], [setup], [_wait_for_data], [cleanup],
    [collect]).  Sample values are exact integers; rounding of floating-point
    samples is outside the model. *)

From Stdlib Require Import ZArith Lia.
From stdpp Require Import gmap strings list.

Open Scope Z_scope.
Open Scope nat_scope.

(** ** Python exceptions that the modelled code can raise *)

Inductive exn : Type :=
  | RuntimeError          (* raised by [collect] for an unknown stream name *)
  | NotImplementedError   (* raised by [collect] for an unexpected rank *)
  | AttributeError        (* a method called on [None] *)
  | TypeError             (* iterating over [None] *)
  | IndexError            (* [shape[-1]] of a 0-d array *)
  | KeyError              (* missing dictionary key *)
  | ValueError.           (* numpy: shapes that do not fit *)

(** ** numpy arrays: a shape and the elements in row-major order *)

Record ndarray (A : Type) : Type := mk_ndarray { shape : list nat; data : list A }.
Arguments mk_ndarray {A} _ _.
Arguments shape {A} _.
Arguments data {A} _.

Definition prod_dims (s : list nat) : nat := foldr Nat.mul 1 s.

(** An array is well formed when it holds as many elements as its shape says. *)
Definition wf_ndarray {A} (a : ndarray A) : Prop := length (data a) = prod_dims (shape a).

(** [np.squeeze]: drop every axis of length one. *)
Definition np_squeeze {A} (a : ndarray A) : ndarray A :=
  mk_ndarray (filter (λ d, d ≠ 1) (shape a)) (data a).

(** [np.arange(lo, hi)] on integers. *)
Definition np_arange (lo hi : nat) : ndarray Z :=
  mk_ndarray [hi - lo] (Z.of_nat <$> seq lo (hi - lo)).

(** [np.tile(a, reps)] for a one-dimensional [a] and an integer [reps]. *)
Definition np_tile {A} (a : ndarray A) (reps : nat) : ndarray A :=
  mk_ndarray [reps * length (data a)] (concat (replicate reps (data a))).

(** [a.reshape(rows, -1)]: numpy refuses when the known dimensions multiply to
    zero or do not divide the number of elements. *)
Definition np_reshape_rows {A} (a : ndarray A) (rows : nat) : exn + ndarray A :=
  let size := length (data a) in
  if decide (rows = 0) then inl ValueError
  else if decide (size mod rows = 0) then inr (mk_ndarray [rows; size / rows] (data a))
  else inl ValueError.

(** [shape[-1]]. *)
Definition shape_last (s : list nat) : exn + nat :=
  match last s with
  | Some d => inr d
  | None => inl IndexError
  end.

(** Broadcasting, on shapes written last axis first. *)
Fixpoint broadcast_dims (r1 r2 : list nat) : option (list nat) :=
  match r1, r2 with
  | [], _ => Some r2
  | _, [] => Some r1
  | d1 :: t1, d2 :: t2 =>
      match broadcast_dims t1 t2 with
      | None => None
      | Some t =>
          if decide (d1 = d2) then Some (d1 :: t)
          else if decide (d1 = 1) then Some (d2 :: t)
          else if decide (d2 = 1) then Some (d1 :: t)
          else None
      end
  end.

(** Position, in an operand of (reversed) shape [r], of the element that the
    broadcast sends to position [k] of a result of (reversed) shape [rs]. *)
Fixpoint source_index (k : nat) (rs r : list nat) : nat :=
  match rs, r with
  | d :: rs', d1 :: r' =>
      (if decide (d1 = 1) then 0 else k mod d) + d1 * source_index (k / d) rs' r'
  | _, _ => 0
  end.

(** A binary ufunc applied with broadcasting. *)
Definition np_binop {A B C} (f : A → B → C) (dA : A) (dB : B)
    (a : ndarray A) (b : ndarray B) : exn + ndarray C :=
  match broadcast_dims (rev (shape a)) (rev (shape b)) with
  | None => inl ValueError
  | Some rs =>
      inr (mk_ndarray (rev rs)
             ((λ k, f (nth (source_index k rs (rev (shape a))) (data a) dA)
                      (nth (source_index k rs (rev (shape b))) (data b) dB))
                <$> seq 0 (prod_dims rs)))
  end.

(** Complex numbers over the integers. *)
Record complex : Type := mk_complex { re : Z; im : Z }.

Definition Cadd (x y : complex) : complex :=
  mk_complex (re x + re y) (im x + im y).
Definition Cmul (x y : complex) : complex :=
  mk_complex (re x * re y - im x * im y) (re x * im y + im x * re y).
Definition of_real (x : Z) : complex := mk_complex x 0.
(** The Python literal [1j]. *)
Definition Cj : complex := mk_complex 0 1.

(** [1j * qdata]: a complex scalar times a real array. *)
Definition np_scale_j (q : ndarray Z) : ndarray complex :=
  mk_ndarray (shape q) ((λ x, Cmul Cj (of_real x)) <$> data q).

(** [idata + 1j*qdata]. *)
Definition iq_combine (idata qdata : ndarray Z) : exn + ndarray complex :=
  np_binop (λ x z, Cadd (of_real x) z) 0%Z (mk_complex 0 0) idata (np_scale_j qdata).

(** Values stored in the dictionary that [collect] yields. *)
Inductive pyvalue : Type :=
  | PyNone
  | RealArray (a : ndarray Z)
  | ComplexArray (a : ndarray complex).

Definition pv_shape (v : pyvalue) : option (list nat) :=
  match v with
  | PyNone => None
  | RealArray a => Some (shape a)
  | ComplexArray a => Some (shape a)
  end.

(** ** Data specifications *)

(** The class of a specification ([isinstance] tests in the source). *)
Inductive SpecClass : Type :=
  | PlainDataSpec
  | TimedOPXDataClass
  | ComplexOPXDataClass (i_data_stream q_data_stream : string).

Record DataSpec : Type := mk_DataSpec {
  name : string;
  depends_on : option (list string);
  cls : SpecClass
}.

Definition is_TimedOPXData (ds : DataSpec) : bool :=
  match cls ds with TimedOPXDataClass => true | _ => false end.

Definition is_ComplexOPXData (ds : DataSpec) : bool :=
  match cls ds with ComplexOPXDataClass _ _ => true | _ => false end.

Definition time_points_name (n : string) : string := n +:+ "_time_points".

(** [TimedOPXData(name, depends_on)], with its [__post_init__]. *)
Definition TimedOPXData (n : string) (deps : option (list string)) : DataSpec :=
  let deps' := match deps with
               | None => []
               | Some l => if decide (length l = 0) then [] else l
               end in
  mk_DataSpec n (Some (time_points_name n :: deps')) TimedOPXDataClass.

(** [ComplexOPXData(name, depends_on, i_data_stream, q_data_stream)]; the
    stream names default to ["I"] and ["Q"]. *)
Definition ComplexOPXData (n : string) (deps : option (list string))
    (i_data_stream q_data_stream : string) : DataSpec :=
  mk_DataSpec n deps (ComplexOPXDataClass i_data_stream q_data_stream).

(** Modelled from the spec: [indep] is defined in [labcore.measurement], which
    is not among the sources; section 4.1 describes the column it builds as a
    Scalar-like column of the given name, which depends on nothing. *)
Definition indep (n : string) : DataSpec := mk_DataSpec n None PlainDataSpec.

(** Modelled from the spec: [make_data_spec] is defined in
    [labcore.measurement.record], which is not among the sources; the spec's
    declarations already are column specifications (name, kind, depends_on),
    on which it returns its argument. *)
Definition make_data_spec (s : DataSpec) : DataSpec := s.

(** ** [RecordOPXdata]: the attributes set by [__init__] *)

Record RecordOPXdata : Type := mk_RecordOPXdata {
  specs : list DataSpec;
  user_data : list string
}.

(** One turn of the [for s in specs] loop of [__init__]. *)
Definition init_step (self : RecordOPXdata) (s : DataSpec) : RecordOPXdata :=
  let spec := make_data_spec s in
  let specs1 := specs self ++ [spec] in
  if is_TimedOPXData spec then
    let tspec := indep (time_points_name (name spec)) in
    mk_RecordOPXdata (specs1 ++ [tspec]) (user_data self ++ [name tspec])
  else mk_RecordOPXdata specs1 (user_data self).

(** [RecordOPXdata.__init__], applied to the declarations in order. *)
Definition RecordOPXdata_init (decls : list DataSpec) : RecordOPXdata :=
  foldl init_step (mk_RecordOPXdata [] []) decls.

(** ** The backend: result handles of a running job

    The handles belong to the Quantum Machines SDK.  Their answers change as
    the job runs, so every call takes the backend's state and returns the next
    one.  Sample counts are natural numbers. *)

Class Backend (B : Type) : Type := {
  (** [handle.count_so_far()] of the handle called [n] *)
  count_so_far : string → B → nat * B;
  (** [result_handles.is_processing()], for the whole job *)
  is_processing : B → bool * B;
  (** [handle.wait_for_values(up_to)] *)
  wait_for_values : string → nat → B → B;
  (** [handle.fetch(slice(lo, hi))['value']] *)
  fetch : string → nat → nat → B → ndarray Z * B
}.

(** ** Module globals and the state of a run *)

Record QuantumMachine : Type := mk_QuantumMachine { qm_id : nat }.

(** The module variables [qmachine_mgr] and [qmachine], and the machines that
    are open on the instrument (what [list_open_quantum_machines] reports). *)
Record Globals : Type := mk_Globals {
  qmachine_mgr : option unit;
  qmachine : option QuantumMachine;
  open_machines : list nat
}.

(** [self.communicator] once [setup] has run.  [result_handles] keeps the
    names of the job's handles, in the order in which iterating over the
    handles yields them. *)
Record Communicator : Type := mk_Communicator {
  self_managed : bool;
  result_handles : option (list string);
  active : bool;
  counter : nat
}.

(** One call [handle.fetch(slice(lo, hi))] on the handle [fc_name]. *)
Record FetchCall : Type := mk_FetchCall { fc_name : string; fc_lo : nat; fc_hi : nat }.

(** The state threaded through the methods.  [fetch_log] and [cleanup_calls]
    are ghost fields: they record the fetches issued so far (latest first) and
    how often [cleanup] was entered. *)
Record State (B : Type) : Type := mk_State {
  communicator : Communicator;
  globals : Globals;
  backend : B;
  fetch_log : list FetchCall;
  cleanup_calls : nat
}.
Arguments mk_State {B} _ _ _ _ _.
Arguments communicator {B} _.
Arguments globals {B} _.
Arguments backend {B} _.
Arguments fetch_log {B} _.
Arguments cleanup_calls {B} _.

Definition set_communicator {B} (c : Communicator) (st : State B) : State B :=
  mk_State c (globals st) (backend st) (fetch_log st) (cleanup_calls st).
Definition set_globals {B} (g : Globals) (st : State B) : State B :=
  mk_State (communicator st) g (backend st) (fetch_log st) (cleanup_calls st).
Definition set_backend {B} (b : B) (st : State B) : State B :=
  mk_State (communicator st) (globals st) b (fetch_log st) (cleanup_calls st).
Definition log_fetch {B} (f : FetchCall) (st : State B) : State B :=
  mk_State (communicator st) (globals st) (backend st) (f :: fetch_log st) (cleanup_calls st).
Definition count_cleanup {B} (st : State B) : State B :=
  mk_State (communicator st) (globals st) (backend st) (fetch_log st) (S (cleanup_calls st)).

Definition set_active (a : bool) (c : Communicator) : Communicator :=
  mk_Communicator (self_managed c) (result_handles c) a (counter c).
Definition set_counter (n : nat) (c : Communicator) : Communicator :=
  mk_Communicator (self_managed c) (result_handles c) (active c) n.

(** ** A state monad with exceptions

    A computation ends normally, raises, or never returns ([Hang], for the
    polling loop that ran out of fuel). *)

Inductive outcome (S A : Type) : Type :=
  | Ok (a : A) (s : S)
  | Raise (e : exn) (s : S)
  | Hang.
Arguments Ok {S A} _ _.
Arguments Raise {S A} _ _.
Arguments Hang {S A}.

Definition M (S A : Type) : Type := S → outcome S A.

Definition ret {S A} (a : A) : M S A := λ s, Ok a s.
Definition raise {S A} (e : exn) : M S A := λ s, Raise e s.
Definition bind {S A C} (m : M S A) (k : A → M S C) : M S C :=
  λ s, match m s with
       | Ok a s' => k a s'
       | Raise e s' => Raise e s'
       | Hang => Hang
       end.
Definition lift_exn {S A} (r : exn + A) : M S A :=
  match r with inl e => raise e | inr a => ret a end.

Notation "x <- m ;; k" := (bind m (λ x, k))
  (at level 100, m at next level, right associativity).

(** ** [QuantumMachineContext] *)

(** The identifier given to a machine that is opened. *)
Definition fresh_id (open : list nat) : nat := S (foldr Nat.max 0 open).

(** [qmachine_mgr.open_qm(config(), close_other_machines=False)]. *)
Definition open_qm (g : Globals) : QuantumMachine * list nat :=
  let i := fresh_id (open_machines g) in (mk_QuantumMachine i, i :: open_machines g).

(** [qmachine.close()]. *)
Definition close_qm (q : QuantumMachine) (open : list nat) : list nat :=
  filter (λ i, i ≠ qm_id q) open.

(** [QuantumMachineContext.__enter__]. *)
Definition qmc_enter (g : Globals) : Globals :=
  let '(q, open) := open_qm g in mk_Globals (Some ()) (Some q) open.

(** [QuantumMachineContext.__exit__]. *)
Definition qmc_exit (g : Globals) : Globals :=
  match qmachine g with
  | Some q => mk_Globals None None (close_qm q (open_machines g))
  | None => g
  end.

Section Collector.
Context {B : Type} `{!Backend B}.

Abbreviation St := (State B).

(** *** [RecordOPXdata.setup]

    [handles] are the result handles of the job that executing the program
    returns. *)
Definition setup (handles : option (list string)) : M St () := λ st,
  let g := globals st in
  let c := communicator st in
  let '(g1, managed) :=
    match qmachine_mgr g, qmachine g with
    | None, None =>
        let '(q, open) := open_qm g in (mk_Globals (Some ()) (Some q) open, true)
    | _, _ => (g, false)
    end in
  match qmachine g1 with
  | None =>
      Raise AttributeError
        (set_communicator (mk_Communicator managed (result_handles c) (active c) (counter c))
           (set_globals g1 st))
  | Some _ =>
      Ok () (set_communicator (mk_Communicator managed handles true 0)
               (set_globals g1 st))
  end.

(** *** [RecordOPXdata._wait_for_data] *)

(** The body of [for name, handle in res_handle], for one handle:
    [acc] holds the lists [statuses] and [processing]. *)
Definition poll_handle (cnt : nat) (batchsize : Z)
    (acc : list bool * list bool * B) (n : string) : list bool * list bool * B :=
  let '(statuses, processing, b) := acc in
  let '(current_datapoint, b1) := count_so_far n b in
  let '(p, b2) := is_processing b1 in
  if p then
    (statuses ++ [bool_decide (batchsize ≤ Z.of_nat current_datapoint - Z.of_nat cnt)%Z],
     processing ++ [true], b2)
  else (statuses ++ [true], processing ++ [false], b2).

(** One pass of the [while not ready] loop over all handles. *)
Definition poll (cnt : nat) (batchsize : Z) (handles : list string) (b : B)
    : list bool * list bool * B :=
  foldl (poll_handle cnt batchsize) ([], [], b) handles.

(** The [while not ready] loop; [fuel] bounds the number of polls. *)
Fixpoint wait_loop (fuel : nat) (cnt : nat) (batchsize : Z) (handles : list string)
    : M St () := λ st,
  match fuel with
  | 0 => Hang
  | S fuel' =>
      let '(statuses, processing, b) := poll cnt batchsize handles (backend st) in
      let ready := bool_decide (false ∉ statuses) in
      let st1 := set_backend b st in
      let st2 := if bool_decide (true ∉ processing)
                 then set_communicator (set_active false (communicator st1)) st1
                 else st1 in
      if ready then Ok () st2 else wait_loop fuel' cnt batchsize handles st2
  end.

Definition _wait_for_data (fuel : nat) (batchsize : Z) : M St () := λ st,
  match result_handles (communicator st) with
  | None => Raise TypeError st
  | Some handles => wait_loop fuel (counter (communicator st)) batchsize handles st
  end.

(** *** [RecordOPXdata.cleanup] *)
Definition cleanup : M St () := λ st0,
  let st := count_cleanup st0 in
  let g := globals st in
  match qmachine_mgr g with
  | None => Raise AttributeError st
  | Some _ =>
      if self_managed (communicator st) then
        match qmachine g with
        | None => Raise AttributeError st
        | Some q =>
            Ok () (set_globals (mk_Globals None None (close_qm q (open_machines g))) st)
        end
      else Ok () st
  end.

(** *** [RecordOPXdata.collect] *)

(** [result_handle.get(n).count_so_far()]. *)
Definition handle_count (handles : list string) (n : string) : M St nat := λ st,
  if decide (n ∈ handles) then
    let '(c, b) := count_so_far n (backend st) in Ok c (set_backend b st)
  else Raise AttributeError st.

(** The local function [get_data_from_handle]; [cnt] is the [counter] that
    the closure captures. *)
Definition get_data_from_handle (handles : list string) (cnt : nat)
    (n : string) (up_to : nat) : M St (option (ndarray Z)) := λ st,
  if decide (up_to = cnt) then Ok None st
  else if decide (n ∈ handles) then
    let b1 := wait_for_values n up_to (backend st) in
    let '(a, b2) := fetch n cnt up_to b1 in
    Ok (Some (np_squeeze a)) (log_fetch (mk_FetchCall n cnt up_to) (set_backend b2 st))
  else Raise AttributeError st.

(** The variables of one turn of the [while] loop that the [for] loop
    updates. *)
Record Locals : Type := mk_Locals {
  return_data : gmap string pyvalue;
  available_points : nat
}.

(** What [get_data_from_handle] returned, as a Python value. *)
Definition fetched_value (d : option (ndarray Z)) : pyvalue :=
  match d with
  | Some a => RealArray a
  | None => PyNone
  end.

(** [available_points] after the test [if i == 0], which reads the count of
    the handle [n] on the first turn of the [for] loop only. *)
Definition first_count (handles : list string) (i : nat) (n : string) (loc : Locals)
    : M St nat :=
  if decide (i = 0) then handle_count handles n else ret (available_points loc).

(** The [if isinstance(ds, TimedOPXData)] block; [nm] is the variable
    [name]. *)
Definition timed_block (ds : DataSpec) (nm : string) (rd : gmap string pyvalue)
    : exn + gmap string pyvalue :=
  if is_TimedOPXData ds then
    match rd !! name ds with
    | None => inl KeyError
    | Some v =>
        match pv_shape v with
        | None => inr rd
        | Some sh =>
            match shape_last sh with
            | inl e => inl e
            | inr n =>
                let tvals := np_arange 1 (n + 1) in
                if decide (length sh = 1) then
                  inr (<[time_points_name nm := RealArray tvals]> rd)
                else if decide (length sh = 2) then
                  match np_reshape_rows (np_tile tvals (hd 0 sh)) (hd 0 sh) with
                  | inl e => inl e
                  | inr t => inr (<[time_points_name nm := RealArray t]> rd)
                  end
                else inl NotImplementedError
            end
        end
    end
  else inr rd.

(** The body of [for i, ds in enumerate(self.specs)].  A specification is
    of one class only, so the [TimedOPXData] block is reached through the
    last branch alone, where [name] has just been bound to [ds.name]. *)
Definition collect_entry (self : RecordOPXdata) (handles : list string) (cnt : nat)
    (i : nat) (ds : DataSpec) (loc : Locals) : M St Locals :=
  match cls ds with
  | ComplexOPXDataClass iname qname =>
      avail <- first_count handles i iname loc ;;
      idata <- get_data_from_handle handles cnt iname avail ;;
      qdata <- get_data_from_handle handles cnt qname avail ;;
      match idata, qdata with
      | Some idata, Some qdata =>
          z <- lift_exn (iq_combine idata qdata) ;;
          ret (mk_Locals (<[name ds := ComplexArray z]> (return_data loc)) avail)
      | _, _ => ret (mk_Locals (return_data loc) avail)
      end
  | _ =>
      if decide (name ds ∈ user_data self) then ret loc
      else if decide (name ds ∉ handles) then raise RuntimeError
      else
        let nm := name ds in
        avail <- first_count handles i nm loc ;;
        d <- get_data_from_handle handles cnt nm avail ;;
        let rd := <[nm := fetched_value d]> (return_data loc) in
        rd' <- lift_exn (timed_block ds nm rd) ;;
        ret (mk_Locals rd' avail)
  end.

(** The [for] loop, from index [i] on. *)
Fixpoint collect_entries (self : RecordOPXdata) (handles : list string) (cnt : nat)
    (i : nat) (l : list DataSpec) (loc : Locals) : M St Locals :=
  match l with
  | [] => ret loc
  | ds :: l' =>
      loc' <- collect_entry self handles cnt i ds loc ;;
      collect_entries self handles cnt (S i) l' loc'
  end.

(** What one turn of the [while] loop does after [_wait_for_data] returned:
    the [for] loop and the update of the counter.  The result is the
    dictionary that is yielded. *)
Definition assemble (self : RecordOPXdata) (handles : list string)
    : M St (gmap string pyvalue) := λ st,
  let cnt := counter (communicator st) in
  (loc <- collect_entries self handles cnt 0 (specs self) (mk_Locals ∅ 0) ;;
   λ st', Ok (return_data loc)
             (set_communicator (set_counter (available_points loc) (communicator st')) st'))
    st.

(** One turn of the [while] loop.  The first component lists what the turn
    yields: [None] when there are no result handles, then the dictionary. *)
Definition collect_iteration (self : RecordOPXdata) (fuel : nat) (batchsize : Z)
    (st : St) : list (option (gmap string pyvalue)) * outcome St () :=
  match result_handles (communicator st) with
  | None => ([None], _wait_for_data fuel batchsize st)
  | Some handles =>
      match _wait_for_data fuel batchsize st with
      | Ok _ st1 =>
          match assemble self handles st1 with
          | Ok rd st2 => ([Some rd], Ok () st2)
          | Raise e st2 => ([], Raise e st2)
          | Hang => ([], Hang)
          end
      | r => ([], r)
      end
  end.

(** How the generator stands after the consumer drove it. *)
Inductive Ending : Type :=
  | Suspended          (* stopped at a [yield]; the consumer pulled no further *)
  | Hung               (* [_wait_for_data] never returned *)
  | StopIteration      (* the generator returned *)
  | Raised (e : exn).  (* an exception left the generator *)

(** The [while self.communicator['active']] loop, for at most [turns] turns.
    [inl] tells how the [try] block was left, [inr] that it was not. *)
Fixpoint collect_loop (self : RecordOPXdata) (turns fuel : nat) (batchsize : Z) (st : St)
    : list (option (gmap string pyvalue)) * (option exn + Ending) * St :=
  match turns with
  | 0 => ([], inr Suspended, st)
  | S turns' =>
      if active (communicator st) then
        match collect_iteration self fuel batchsize st with
        | (ys, Ok _ st') =>
            let '(ys', e, st'') := collect_loop self turns' fuel batchsize st' in
            (ys ++ ys', e, st'')
        | (ys, Raise e st') => (ys, inl (Some e), st')
        | (ys, Hang) => (ys, inr Hung, st)
        end
      else ([], inl None, st)
  end.

(** [collect(batchsize)], driven for at most [turns] turns of its loop: the
    values yielded, how the generator stands, and the final state.  Leaving
    the [try] block runs [cleanup]; an exception raised there replaces the
    pending one. *)
Definition collect (self : RecordOPXdata) (turns fuel : nat) (batchsize : Z) (st : St)
    : list (option (gmap string pyvalue)) * Ending * St :=
  match collect_loop self turns fuel batchsize st with
  | (ys, inr e, st') => (ys, e, st')
  | (ys, inl pending, st') =>
      match cleanup st' with
      | Ok _ st'' =>
          (ys, match pending with Some e => Raised e | None => StopIteration end, st'')
      | Raise e st'' => (ys, Raised e, st'')
      | Hang => (ys, Hung, st')
      end
  end.

End Collector.

(** ** A scripted backend

    A backend whose answers are fixed in advance as functions of a clock that
    every call advances by one tick.  It serves to run the collector on
    concrete jobs. *)

Record Script : Type := mk_Script {
  tick : nat;
  count_at : string → nat → nat;
  processing_at : nat → bool;
  values_at : string → nat → nat → nat → ndarray Z
}.

Definition advance (s : Script) : Script :=
  mk_Script (S (tick s)) (count_at s) (processing_at s) (values_at s).

#[export] Instance scripted_backend : Backend Script := {|
  count_so_far n s := (count_at s n (tick s), advance s);
  is_processing s := (processing_at s (tick s), advance s);
  wait_for_values n up_to s := advance s;
  fetch n lo hi s := (values_at s n lo hi (tick s), advance s)
|}.

(** A stream of scalar samples: sample number [k] (from zero) is [f k], and a
    fetch of [[lo, hi)] returns them as a one-dimensional array. *)
Definition scalar_samples (f : nat → Z) (lo hi : nat) : ndarray Z :=
  mk_ndarray [hi - lo] (f <$> seq lo (hi - lo)).

(** The state in which a run starts: nothing open, nothing fetched. *)
Definition initial_state (s : Script) : State Script :=
  mk_State (mk_Communicator false None false 0) (mk_Globals None None []) s [] 0.

(** The state that [setup] leaves behind; [st] itself should [setup] raise. *)
Definition after_setup `{Backend B} (handles : option (list string)) (st : State B)
    : State B :=
  match setup handles st with
  | Ok _ st' => st'
  | _ => st
  end.

(** The final state of a computation; [st] itself if there is none. *)
Definition state_after {S A} (m : M S A) (st : S) : S :=
  match m st with
  | Ok _ st' | Raise _ st' => st'
  | Hang => st
  end.

(** The state after one turn of the [while] loop. *)
Definition after_turn `{Backend B} (self : RecordOPXdata) (fuel : nat) (batchsize : Z)
    (st : State B) : State B :=
  state_after (λ s, (collect_iteration self fuel batchsize s).2) st.

(** ** Example jobs *)

(** The job of the first example scenario of the specification: one scalar
    stream ["x"] whose count is 0, 50 and 120 on the first three polls, still
    120 when the first batch is fetched, and 200 from the poll on which the
    job has stopped. *)
Definition scenario_scalar : Script :=
  mk_Script 0
    (λ _ t, if decide (t < 2) then 0 else if decide (t < 4) then 50
            else if decide (t < 9) then 120 else 200)
    (λ t, bool_decide (t < 10))
    (λ _ lo hi _, scalar_samples Z.of_nat lo hi).

(** The first example scenario, set up for collection. *)
Definition scalar_start : State Script :=
  after_setup (Some ["x"]) (initial_state scenario_scalar).

(** A run inside a [QuantumMachineContext]: the session is supplied from
    outside. *)
Definition external_start : State Script :=
  let st := initial_state scenario_scalar in
  after_setup (Some ["x"]) (set_globals (qmc_enter (globals st)) st).

(** A job that has stopped without producing a sample. *)
Definition idle_job : Script :=
  mk_Script 0 (λ _ _, 0) (λ _, false) (λ _ lo hi _, scalar_samples Z.of_nat lo hi).

Definition idle_start : State Script :=
  after_setup (Some ["x"]) (initial_state idle_job).

(** The job of the third example scenario of the specification: the streams
    ["I"] and ["Q"] hold two samples each, 1, 2 and 3, 4, and the job has
    stopped. *)
Definition iq_job : Script :=
  mk_Script 0 (λ _ _, 2) (λ _, false)
    (λ n lo hi _, if decide (n = "I")
                  then scalar_samples (λ k, Z.of_nat k + 1)%Z lo hi
                  else scalar_samples (λ k, Z.of_nat k + 3)%Z lo hi).

Definition iq_start : State Script :=
  after_setup (Some ["I"; "Q"]) (initial_state iq_job).

(** A job with one stream ["sig"] that holds a single scalar sample, declared
    as a timed column: the fetch returns an array of shape (1,). *)
Definition single_sample_job : Script :=
  mk_Script 0 (λ _ _, 1) (λ _, false) (λ _ lo hi _, scalar_samples (λ _, 7%Z) lo hi).

Definition single_sample_start : State Script :=
  after_setup (Some ["sig"]) (initial_state single_sample_job).

(** A backend over a bare clock, whose streams all gain ten samples per tick
    and whose job stops at tick five. *)
#[export] Instance ramp_backend : Backend nat := {|
  count_so_far n t := (10 * t, S t);
  is_processing t := (bool_decide (t < 5), S t);
  wait_for_values n up_to t := S t;
  fetch n lo hi t := (scalar_samples Z.of_nat lo hi, S t)
|}.

Definition ramp_start : State nat :=
  after_setup (Some ["x"])
    (mk_State (mk_Communicator false None false 0) (mk_Globals None None []) 0 [] 0).

(** A job with one stream ["sig"] of traces of ten points each; the count is
    1 until tick five and 4 afterwards, and a fetch of [[lo, hi)] returns an
    array of shape ([hi - lo], 10). *)
Definition trace_job : Script :=
  mk_Script 0 (λ _ t, if decide (t < 5) then 1 else 4) (λ t, bool_decide (t < 5))
    (λ _ lo hi _, mk_ndarray [hi - lo; 10] (replicate ((hi - lo) * 10) 0%Z)).

Definition trace_start : State Script :=
  after_setup (Some ["sig"]) (initial_state trace_job).

(** The values that a run yields, as association lists. *)
Definition yielded_items (r : list (option (gmap string pyvalue)) * Ending * State Script)
    : list (option (list (string * pyvalue))) :=
  fmap (M := list) (fmap (M := option) (map_to_list (M := gmap string pyvalue))) r.1.1.

(** ** Notions used to state the properties *)

(** What one declaration contributes to [self.specs] and to
    [self.user_data]. *)
Definition expand (d : DataSpec) : list DataSpec :=
  if is_TimedOPXData (make_data_spec d)
  then [make_data_spec d; indep (time_points_name (name (make_data_spec d)))]
  else [make_data_spec d].

Definition synthetic_names (d : DataSpec) : list string :=
  if is_TimedOPXData (make_data_spec d)
  then [time_points_name (name (make_data_spec d))]
  else [].

(** [a] stands immediately before [b] in [l]. *)
Definition immediately_before {A} (a b : A) (l : list A) : Prop :=
  ∃ pre post, l = pre ++ a :: b :: post.

(** The stream whose count gives [available_points] when the specification
    comes first in the plan. *)
Definition backing_stream (ds : DataSpec) : string :=
  match cls ds with
  | ComplexOPXDataClass iname _ => iname
  | _ => name ds
  end.

(** A column that [collect] skips: not complex, and listed in
    [self.user_data]. *)
Definition skipped (self : RecordOPXdata) (ds : DataSpec) : Prop :=
  is_ComplexOPXData ds = false ∧ name ds ∈ user_data self.

(** The session is open: both module globals are set. *)
Definition session_open (g : Globals) : Prop :=
  qmachine_mgr g ≠ None ∧ qmachine g ≠ None.

(** What a poll sees on one handle: its count, and whether the job was still
    processing when that handle was looked at. *)
Record Observation : Type := mk_Observation { seen_count : nat; seen_processing : bool }.

(** The handle is satisfied: the job has stopped, or the count has advanced
    by [batchsize] beyond [cnt]. *)
Definition satisfied (cnt : nat) (batchsize : Z) (o : Observation) : Prop :=
  seen_processing o = false ∨ (batchsize ≤ Z.of_nat (seen_count o) - Z.of_nat cnt)%Z.

(** The entry that a poll appends to [statuses] for an observation. *)
Definition status_of (cnt : nat) (batchsize : Z) (o : Observation) : bool :=
  if seen_processing o
  then bool_decide (batchsize ≤ Z.of_nat (seen_count o) - Z.of_nat cnt)%Z
  else true.

Section Polls.
Context {B : Type} `{!Backend B}.

Definition observe_handle (acc : list Observation * B) (n : string)
    : list Observation * B :=
  let '(obs, b) := acc in
  let '(c, b1) := count_so_far n b in
  let '(p, b2) := is_processing b1 in
  (obs ++ [mk_Observation c p], b2).

(** The observations of one poll, handle by handle, and the backend after
    it. *)
Definition observe (handles : list string) (b : B) : list Observation * B :=
  foldl observe_handle ([], b) handles.

(** The backend when poll number [k] (from zero) starts. *)
Definition poll_start (handles : list string) (k : nat) (b : B) : B :=
  Nat.iter k (λ b', (observe handles b').2) b.

(** One turn of the [while] loop ran to its [yield]. *)
Definition turn (self : RecordOPXdata) (fuel : nat) (batchsize : Z)
    (st st' : State B) : Prop :=
  active (communicator st) = true
  ∧ ∃ ys, collect_iteration self fuel batchsize st = (ys, Ok () st').

End Polls.

(** What the branch for a complex column leaves in the dictionary: the
    combination of the two arrays under the column's name when both were
    fetched, and nothing new otherwise. *)
Definition complex_stored (ds : DataSpec) (idata qdata : option (ndarray Z))
    (rd rd' : gmap string pyvalue) : Prop :=
  match idata, qdata with
  | Some i, Some q => ∃ z, iq_combine i q = inr z ∧ rd' = <[name ds := ComplexArray z]> rd
  | _, _ => rd' = rd
  end.

Section Relations.
Context {B : Type} `{!Backend B}.

(** The final state of a computation, if there is one, is related to the
    initial one by [R]. *)
Definition respects (R : State B → State B → Prop) {A} (m : M (State B) A) : Prop :=
  ∀ s, match m s with
       | Ok _ s' | Raise _ s' => R s s'
       | Hang => True
       end.

(** Nothing of the run changed except the backend and the log of fetches. *)
Definition same_run (s s' : State B) : Prop :=
  communicator s' = communicator s
  ∧ globals s' = globals s
  ∧ cleanup_calls s' = cleanup_calls s.

(** The fetches issued between [s] and [s'] all are of the range
    [[cnt, hi)]. *)
Definition fetched_only (cnt hi : nat) (s s' : State B) : Prop :=
  ∃ new, fetch_log s' = new ++ fetch_log s
         ∧ Forall (λ f, fc_lo f = cnt ∧ fc_hi f = hi) new.

(** The counts of the backend never go down: [level n b] is the number of
    samples that stream [n] has produced in state [b]; a count that is read
    lies between the level before and the level after the call, and no call
    lowers a level. *)
Record monotone_counts (level : string → B → nat) : Prop := {
  count_above : ∀ n b, level n b ≤ (count_so_far n b).1;
  count_below : ∀ n b, (count_so_far n b).1 ≤ level n (count_so_far n b).2;
  count_mono : ∀ m n b, level m b ≤ level m (count_so_far n b).2;
  processing_mono : ∀ m b, level m b ≤ level m (is_processing b).2;
  wait_mono : ∀ m n k b, level m b ≤ level m (wait_for_values n k b);
  fetch_mono : ∀ m n lo hi b, level m b ≤ level m (fetch n lo hi b).2
}.

(** No level is lower in [s'] than in [s]. *)
Definition levels_rise (level : string → B → nat) (s s' : State B) : Prop :=
  ∀ n, level n (backend s) ≤ level n (backend s').

End Relations.

(** What ties the stored counter to the backend between two turns: it is at
    most the level of the stream that backs the first column of the plan, and
    it is zero when the plan has no such stream. *)
Definition counter_inv `{Backend B} (level : string → B → nat) (self : RecordOPXdata)
    (st : State B) : Prop :=
  match specs self with
  | first :: _ =>
      (¬ skipped self first →
       counter (communicator st) ≤ level (backing_stream first) (backend st))
      ∧ (skipped self first → counter (communicator st) = 0)
  | [] => counter (communicator st) = 0
  end.

(** A run whose module globals hold a machine but no manager, as when the
    machine was assigned by hand. *)
Definition unmanaged_start : State Script :=
  set_globals (mk_Globals None (Some (mk_QuantumMachine 7)) [7]) (initial_state idle_job).

(** A run whose module globals hold a manager but no machine. *)
Definition machineless_start : State Script :=
  set_globals (mk_Globals (Some ()) None []) (initial_state idle_job).

(** The stream [n] backs a column of the plan that [collect] fetches: it is
    the I or the Q stream of a complex column, or the name of another column
    that is not in [user_data]. *)
Definition fetched_for (self : RecordOPXdata) (n : string) : Prop :=
  ∃ ds, ds ∈ specs self
        ∧ match cls ds with
          | ComplexOPXDataClass iname qname => n = iname ∨ n = qname
          | _ => n = name ds ∧ name ds ∉ user_data self
          end.

(** The exception, if any, in which the block for timed columns ends on data
    of the shape [sh]. *)
Definition timed_error (sh : list nat) : option exn :=
  match sh with
  | [] => Some IndexError
  | [_] => None
  | [r; _] => if decide (r = 0) then Some ValueError else None
  | _ => Some NotImplementedError
  end.

(** A plan whose first declaration bears the name of the synthetic column of
    the timed declaration that follows. *)
Definition shadowed_plan : RecordOPXdata :=
  RecordOPXdata_init [indep "sig_time_points"; TimedOPXData "sig" None].

(** A job with one stream ["sig"] of two samples that are 2 by 3 arrays. *)
Definition cube_job : Script :=
  mk_Script 0 (λ _ _, 2) (λ _, false)
    (λ _ lo hi _, mk_ndarray [hi - lo; 2; 3] (replicate ((hi - lo) * 6) 0%Z)).

Definition cube_start : State Script :=
  after_setup (Some ["sig"]) (initial_state cube_job).

(** A job that has stopped with [n] samples 1, 2, ... on the stream ["I"] and
    none on the stream ["Q"]: a fetch on ["Q"] returns an empty array. *)
Definition lagging_q_job (n : nat) : Script :=
  mk_Script 0 (λ h _, if decide (h = "I") then n else 0) (λ _, false)
    (λ h lo hi _, if decide (h = "I")
                  then scalar_samples (λ k, Z.of_nat k + 1)%Z lo hi
                  else mk_ndarray [0] []).

Definition lagging_q_start (n : nat) : State Script :=
  after_setup (Some ["I"; "Q"]) (initial_state (lagging_q_job n)).

(** * Properties *)

(** ** The state monad *)

Lemma bind_Ok {S A C} (m : M S A) (k : A → M S C) s c s2 :
  bind m k s = Ok c s2 ↔ ∃ a s1, m s = Ok a s1 ∧ k a s1 = Ok c s2.
Proof.
  unfold bind. split.
  - destruct (m s) as [a s1|e s1|] eqn:E; try discriminate. eauto.
  - intros (a & s1 & -> & Hk). exact Hk.
Qed.

Lemma lift_exn_Ok {S A} (r : exn + A) (s s' : S) a :
  lift_exn r s = Ok a s' ↔ r = inr a ∧ s' = s.
Proof.
  destruct r as [e|x]; cbn; unfold raise, ret; split.
  - discriminate.
  - intros [? _]. discriminate.
  - intros [= -> ->]. done.
  - intros [[= ->] ->]. done.
Qed.

(** ** [__init__] *)

Lemma foldl_init_step acc decls :
  foldl init_step acc decls =
    mk_RecordOPXdata (specs acc ++ flat_map expand decls)
                     (user_data acc ++ flat_map synthetic_names decls).
Proof.
  revert acc. induction decls as [|d decls IH]; intros acc; cbn.
  - rewrite !app_nil_r. by destruct acc.
  - rewrite IH. unfold init_step, expand, synthetic_names.
    destruct (is_TimedOPXData (make_data_spec d)); cbn;
      by rewrite <- ?app_assoc.
Qed.

Lemma init_specs decls : specs (RecordOPXdata_init decls) = flat_map expand decls.
Proof. unfold RecordOPXdata_init. by rewrite foldl_init_step. Qed.

Lemma init_user_data decls :
  user_data (RecordOPXdata_init decls) = flat_map synthetic_names decls.
Proof. unfold RecordOPXdata_init. by rewrite foldl_init_step. Qed.

(** Every name in [user_data] is the name of a synthetic column of the plan,
    which is a plain specification. *)
Lemma user_data_in_specs decls n :
  n ∈ user_data (RecordOPXdata_init decls) → indep n ∈ specs (RecordOPXdata_init decls).
Proof.
  rewrite init_user_data, init_specs, !list_elem_of_In, !in_flat_map.
  intros (d & Hd & Hn). exists d. split; [done|].
  unfold synthetic_names in Hn. unfold expand.
  destruct (is_TimedOPXData (make_data_spec d)); cbn in *; [|done].
  destruct Hn as [<-|[]]. auto.
Qed.

(** A timed column of the plan is followed by its synthetic column. *)
Lemma timed_in_specs decls ds :
  ds ∈ specs (RecordOPXdata_init decls) → is_TimedOPXData ds = true →
  ∃ pre post, specs (RecordOPXdata_init decls)
              = pre ++ ds :: indep (time_points_name (name ds)) :: post
              ∧ time_points_name (name ds) ∈ user_data (RecordOPXdata_init decls).
Proof.
  rewrite init_specs, init_user_data, list_elem_of_In, in_flat_map.
  intros (d & Hd & Hin) Ht.
  apply list_elem_of_In, list_elem_of_split in Hd as (l1 & l2 & ->).
  assert (ds = make_data_spec d ∧ is_TimedOPXData (make_data_spec d) = true) as [-> Ht'].
  { unfold expand in Hin. destruct (is_TimedOPXData (make_data_spec d)) eqn:E; cbn in Hin.
    - destruct Hin as [<-|[<-|[]]]; [done|discriminate Ht].
    - destruct Hin as [<-|[]]. congruence. }
  exists (flat_map expand l1), (flat_map expand l2). split.
  - rewrite flat_map_app. cbn. unfold expand at 2. by rewrite Ht'.
  - rewrite flat_map_app. cbn. unfold synthetic_names at 2. rewrite Ht'.
    apply list_elem_of_In, in_or_app. right. by left.
Qed.

(** *** C5 and C9: the plan that [__init__] builds *)

(** C5 as stated fails on a single timed declaration: the synthetic column does
    not stand before the timed one. *)
Lemma C5_synthetic_not_before_timed :
  ¬ immediately_before "sig_time_points" "sig"
      (name <$> specs (RecordOPXdata_init [TimedOPXData "sig" None])).
Proof.
  intros (pre & post & Heq). cbn in Heq.
  destruct pre as [|x [|y pre]]; cbn in Heq; try discriminate.
  destruct pre; discriminate.
Qed.

(** C5, amended: for every timed declaration the plan holds the synthetic
    column [<name>_time_points] immediately after the timed column, its name
    is recorded in [user_data], and [collect] passes over that column without
    calling the backend. *)
Theorem C5_synthetic_follows_timed `{Backend B} (decls : list DataSpec) (d : DataSpec) :
  d ∈ decls → is_TimedOPXData (make_data_spec d) = true →
  let self := RecordOPXdata_init decls in
  let tname := time_points_name (name (make_data_spec d)) in
  immediately_before (make_data_spec d) (indep tname) (specs self)
  ∧ tname ∈ user_data self
  ∧ ∀ handles cnt i loc (st : State B),
      collect_entry self handles cnt i (indep tname) loc st = Ok loc st.
Proof.
  intros Hd Ht self tname.
  assert (make_data_spec d ∈ specs self) as Hin.
  { unfold self. rewrite init_specs, list_elem_of_In, in_flat_map.
    exists d. split; [by apply list_elem_of_In|]. unfold expand. rewrite Ht. by left. }
  destruct (timed_in_specs decls _ Hin Ht) as (pre & post & Heq & Hu).
  split; [by exists pre, post|]. split; [done|].
  intros handles cnt i loc st. unfold collect_entry. cbn.
  destruct (decide (tname ∈ user_data self)) as [_|Hn]; [done|]. by destruct Hn.
Qed.

Lemma C5_synthetic_follows_timed_witness :
  let decls := [TimedOPXData "sig" None] in
  let self := RecordOPXdata_init decls in
  immediately_before (TimedOPXData "sig" None) (indep "sig_time_points") (specs self)
  ∧ "sig_time_points" ∈ user_data self
  ∧ ∀ handles cnt i loc (st : State Script),
      collect_entry self handles cnt i (indep "sig_time_points") loc st = Ok loc st.
Proof.
  apply (C5_synthetic_follows_timed (B := Script)
           [TimedOPXData "sig" None] (TimedOPXData "sig" None)).
  - apply list_elem_of_here.
  - reflexivity.
Defined.

(** C9 as stated fails on two declarations of the same name: the constructor
    returns, and both columns are in the plan. *)
Lemma C9_shared_name_accepted :
  ¬ NoDup (name <$> flat_map expand [indep "x"; indep "x"])
  ∧ ∃ self, RecordOPXdata_init [indep "x"; indep "x"] = self
            ∧ specs self = [indep "x"; indep "x"].
Proof.
  split.
  - cbn. intros Hnd. apply NoDup_cons_1_1 in Hnd. apply Hnd, list_elem_of_here.
  - eexists. split; reflexivity.
Qed.

(** C9, amended: the constructor returns for every list of declarations; the
    plan is the declarations in order, each timed one followed by its
    synthetic column, and names are not compared. *)
Theorem C9_init_total (decls : list DataSpec) :
  ∃ self, RecordOPXdata_init decls = self
          ∧ specs self = flat_map expand decls
          ∧ user_data self = flat_map synthetic_names decls.
Proof.
  eexists. split; [reflexivity|]. split; [apply init_specs | apply init_user_data].
Qed.

(** ** [cleanup] *)

Section CleanupFacts.
Context {B : Type} `{!Backend B}.
Implicit Types st : State B.

Lemma cleanup_open st :
  session_open (globals st) →
  ∃ st', cleanup st = Ok () st'
         ∧ communicator st' = communicator st
         ∧ backend st' = backend st
         ∧ fetch_log st' = fetch_log st
         ∧ cleanup_calls st' = S (cleanup_calls st)
         ∧ globals st' =
             if self_managed (communicator st) then
               match qmachine (globals st) with
               | Some q => mk_Globals None None (close_qm q (open_machines (globals st)))
               | None => globals st
               end
             else globals st.
Proof.
  intros [Hm Hq]. unfold cleanup. cbn.
  destruct (qmachine_mgr (globals st)) as [m|]; [|done].
  destruct (self_managed (communicator st)).
  - destruct (qmachine (globals st)) as [q|]; [|done]. eexists. split; [done|]. by cbn.
  - eexists. split; [done|]. by cbn.
Qed.

(** Whatever [cleanup] does, it is entered once. *)
Lemma cleanup_counts st :
  match cleanup st with
  | Ok _ st' | Raise _ st' => cleanup_calls st' = S (cleanup_calls st)
  | Hang => False
  end.
Proof.
  unfold cleanup. cbn. destruct (qmachine_mgr (globals st)); [|done].
  destruct (self_managed (communicator st)); [|done].
  by destruct (qmachine (globals st)).
Qed.

End CleanupFacts.

(** *** C7: [cleanup] and the ownership of the session *)

(** C7 as stated fails when the collector opened the session itself: the run of
    the first example scenario ends normally, which calls [cleanup] once, and a
    second call raises, since the first one reset [qmachine_mgr]. *)
Lemma C7_second_cleanup_raises :
  let st := after_setup (Some ["x"]) (initial_state scenario_scalar) in
  self_managed (communicator st) = true
  ∧ ∃ ys st', collect (RecordOPXdata_init [indep "x"]) 5 10 100 st = (ys, StopIteration, st')
              ∧ cleanup_calls st' = 1
              ∧ ∃ st'', cleanup st' = Raise AttributeError st''.
Proof.
  split; [reflexivity|].
  eexists _, _. split; [vm_compute; reflexivity|].
  split; [reflexivity|]. eexists. vm_compute. reflexivity.
Qed.

(** C7, amended: with the session open, [cleanup] returns, and closes the
    session if and only if the collector opened it itself; a session that was
    supplied from outside is left as it is, and then a second call returns
    as well and again changes nothing of the session or of the run. *)
Theorem C7_cleanup_closes_own_session `{Backend B} (st : State B) :
  session_open (globals st) →
  ∃ st', cleanup st = Ok () st'
    ∧ communicator st' = communicator st
    ∧ (self_managed (communicator st) = true →
         ∃ q, qmachine (globals st) = Some q
              ∧ globals st' = mk_Globals None None (close_qm q (open_machines (globals st)))
              ∧ qm_id q ∉ open_machines (globals st'))
    ∧ (self_managed (communicator st) = false →
         globals st' = globals st
         ∧ ∃ st'', cleanup st' = Ok () st''
                   ∧ globals st'' = globals st
                   ∧ communicator st'' = communicator st
                   ∧ backend st'' = backend st
                   ∧ fetch_log st'' = fetch_log st).
Proof.
  intros Hopen.
  destruct (cleanup_open st Hopen) as (st' & Hc & Hcomm & Hb & Hl & Hn & Hg).
  exists st'. split; [done|]. split; [done|]. split.
  - intros Hm. rewrite Hm in Hg. destruct Hopen as [_ Hq].
    destruct (qmachine (globals st)) as [q|]; [|done].
    exists q. split; [done|]. split; [done|].
    rewrite Hg. cbn. unfold close_qm. rewrite list_elem_of_filter. tauto.
  - intros Hm. rewrite Hm in Hg. split; [done|].
    assert (session_open (globals st')) as Hopen' by (by rewrite Hg).
    destruct (cleanup_open st' Hopen') as (st'' & Hc' & Hcomm' & Hb' & Hl' & _ & Hg').
    exists st''. rewrite Hcomm, Hm in Hg'.
    repeat split; congruence.
Qed.

Lemma C7_cleanup_closes_own_session_witness :
  let st := after_setup (Some ["x"]) (initial_state scenario_scalar) in
  session_open (globals st)
  ∧ ∃ st', cleanup st = Ok () st'
    ∧ communicator st' = communicator st
    ∧ (self_managed (communicator st) = true →
         ∃ q, qmachine (globals st) = Some q
              ∧ globals st' = mk_Globals None None (close_qm q (open_machines (globals st)))
              ∧ qm_id q ∉ open_machines (globals st'))
    ∧ (self_managed (communicator st) = false →
         globals st' = globals st
         ∧ ∃ st'', cleanup st' = Ok () st''
                   ∧ globals st'' = globals st
                   ∧ communicator st'' = communicator st
                   ∧ backend st'' = backend st
                   ∧ fetch_log st'' = fetch_log st).
Proof.
  assert (session_open
            (globals (after_setup (Some ["x"]) (initial_state scenario_scalar)))) as Hopen.
  { split; discriminate. }
  split; [exact Hopen|].
  exact (C7_cleanup_closes_own_session
           (after_setup (Some ["x"]) (initial_state scenario_scalar)) Hopen).
Defined.

(** ** [_wait_for_data] *)

Section WaitFacts.
Context {B : Type} `{!Backend B}.
Implicit Types st : State B.

Lemma foldl_poll_handle cnt batchsize handles statuses processing obs b :
  statuses = status_of cnt batchsize <$> obs →
  processing = seen_processing <$> obs →
  let '(obs', b') := foldl observe_handle (obs, b) handles in
  foldl (poll_handle cnt batchsize) (statuses, processing, b) handles
  = (status_of cnt batchsize <$> obs', seen_processing <$> obs', b').
Proof.
  revert statuses processing obs b.
  induction handles as [|n handles IH]; intros statuses processing obs b -> ->; cbn.
  - done.
  - destruct (count_so_far n b) as [c b1]. destruct (is_processing b1) as [p b2].
    destruct p; apply IH; by rewrite fmap_app.
Qed.

Lemma poll_observe cnt batchsize handles b :
  poll cnt batchsize handles b
  = (status_of cnt batchsize <$> (observe handles b).1,
     seen_processing <$> (observe handles b).1,
     (observe handles b).2).
Proof.
  unfold poll, observe.
  pose proof (foldl_poll_handle cnt batchsize handles [] [] [] b eq_refl eq_refl) as Hf.
  destruct (foldl observe_handle ([], b) handles) as [obs' b']. exact Hf.
Qed.

Lemma all_satisfied cnt batchsize (obs : list Observation) :
  false ∉ (status_of cnt batchsize <$> obs) ↔ Forall (satisfied cnt batchsize) obs.
Proof.
  rewrite Forall_forall, list_elem_of_fmap. split.
  - intros Hn o Ho. unfold satisfied.
    destruct (seen_processing o) eqn:Ep; [|by left]. right.
    destruct (decide (batchsize ≤ Z.of_nat (seen_count o) - Z.of_nat cnt)%Z) as [|Hlt];
      [done|].
    destruct Hn. exists o. split; [|done].
    unfold status_of. rewrite Ep. by rewrite bool_decide_eq_false_2.
  - intros Hall (o & Hs & Ho). specialize (Hall o Ho).
    unfold status_of in Hs. destruct Hall as [Hp|Hb].
    + by rewrite Hp in Hs.
    + destruct (seen_processing o); [|done]. by rewrite bool_decide_eq_true_2 in Hs.
Qed.

Lemma none_processing (obs : list Observation) :
  true ∉ (seen_processing <$> obs) ↔ Forall (λ o, seen_processing o = false) obs.
Proof.
  rewrite Forall_forall, list_elem_of_fmap. split.
  - intros Hn o Ho. destruct (seen_processing o) eqn:Ep; [|done].
    destruct Hn. by exists o.
  - intros Hall (o & Hs & Ho). specialize (Hall o Ho). congruence.
Qed.

(** A poll on which no handle saw the job processing satisfies every
    handle. *)
Lemma none_processing_satisfied cnt batchsize (obs : list Observation) :
  Forall (λ o, seen_processing o = false) obs → Forall (satisfied cnt batchsize) obs.
Proof. intros Hall. eapply Forall_impl; [exact Hall|]. intros o Ho. by left. Qed.

Lemma poll_start_S handles k b :
  poll_start handles (S k) b = poll_start handles k (observe handles b).2.
Proof. unfold poll_start. by rewrite Nat.iter_succ_r. Qed.

(** The loop returns on the first poll that satisfies every handle; apart
    from the backend it changes [active] only, and that on the last poll. *)
Lemma wait_loop_Ok fuel cnt batchsize handles st st' :
  wait_loop fuel cnt batchsize handles st = Ok () st' →
  ∃ k, k < fuel
    ∧ (∀ j, j < k →
         ¬ Forall (satisfied cnt batchsize)
             (observe handles (poll_start handles j (backend st))).1)
    ∧ Forall (satisfied cnt batchsize)
        (observe handles (poll_start handles k (backend st))).1
    ∧ backend st' = (observe handles (poll_start handles k (backend st))).2
    ∧ globals st' = globals st
    ∧ fetch_log st' = fetch_log st
    ∧ cleanup_calls st' = cleanup_calls st
    ∧ communicator st' =
        if bool_decide (Forall (λ o, seen_processing o = false)
                          (observe handles (poll_start handles k (backend st))).1)
        then set_active false (communicator st)
        else communicator st.
Proof.
  revert st. induction fuel as [|fuel IH]; intros st; cbn; [done|].
  rewrite poll_observe.
  set (obs := (observe handles (backend st)).1).
  set (b1 := (observe handles (backend st)).2).
  destruct (decide (Forall (satisfied cnt batchsize) obs)) as [Hsat|Hsat].
  - rewrite bool_decide_eq_true_2 by (by apply all_satisfied).
    intros [= <-]. exists 0. split; [lia|]. split; [intros j Hj; lia|].
    cbn. fold obs b1. split; [done|].
    destruct (decide (Forall (λ o, seen_processing o = false) obs)) as [Hnp|Hnp].
    + rewrite !bool_decide_eq_true_2 by (done || by apply none_processing). by cbn.
    + rewrite !bool_decide_eq_false_2 by (done || by rewrite none_processing). by cbn.
  - rewrite (bool_decide_eq_false_2 (false ∉ _)) by (by rewrite all_satisfied).
    assert (¬ Forall (λ o, seen_processing o = false) obs) as Hnp.
    { intros Hnp. by apply Hsat, none_processing_satisfied. }
    rewrite bool_decide_eq_false_2 by (by rewrite none_processing).
    intros Hw. apply IH in Hw as (k & Hk & Hbefore & Hk_sat & Hb & Hg & Hl & Hc & Hcomm).
    cbn in Hb, Hg, Hl, Hc, Hcomm, Hbefore, Hk_sat.
    exists (S k). split; [lia|]. rewrite poll_start_S. fold b1.
    split; [|done].
    intros [|j] Hj; [done|]. rewrite poll_start_S. fold b1. apply Hbefore. lia.
Qed.

(** Conversely, the loop returns when the fuel reaches a poll that
    satisfies every handle. *)
Lemma wait_loop_returns fuel cnt batchsize handles st k :
  k < fuel →
  Forall (satisfied cnt batchsize)
    (observe handles (poll_start handles k (backend st))).1 →
  ∃ st', wait_loop fuel cnt batchsize handles st = Ok () st'.
Proof.
  revert st k. induction fuel as [|fuel IH]; intros st k Hk Hsat; [lia|].
  cbn. rewrite poll_observe.
  destruct (decide (Forall (satisfied cnt batchsize) (observe handles (backend st)).1))
    as [Hnow|Hnow].
  - rewrite bool_decide_eq_true_2 by (by apply all_satisfied). eauto.
  - rewrite (bool_decide_eq_false_2 (false ∉ _)) by (by rewrite all_satisfied).
    destruct k as [|k]; [done|]. rewrite poll_start_S in Hsat.
    eapply (IH _ k); [lia|]. destruct (bool_decide _); exact Hsat.
Qed.

End WaitFacts.

(** ** The [for] loop of [collect] *)

Section EntryFacts.
Context {B : Type} `{!Backend B}.
Implicit Types (st : State B) (loc : Locals) (rd : gmap string pyvalue).

Lemma respects_ret (R : relation (State B)) `{!Reflexive R} {A} (a : A) : respects R (ret a).
Proof. intros s. cbn. reflexivity. Qed.

Lemma respects_raise (R : relation (State B)) `{!Reflexive R} {A} e : respects R (raise (A := A) e).
Proof. intros s. cbn. reflexivity. Qed.

Lemma respects_lift_exn (R : relation (State B)) `{!Reflexive R} {A} (r : exn + A) : respects R (lift_exn r).
Proof. destruct r; [apply respects_raise | apply respects_ret]; done. Qed.

Lemma respects_bind (R : relation (State B)) `{!Transitive R} {A C} (m : M (State B) A) (k : A → M (State B) C) :
  respects R m → (∀ a, respects R (k a)) → respects R (bind m k).
Proof.
  intros Hm Hk s. unfold bind. specialize (Hm s).
  destruct (m s) as [a s1|e s1|]; [|done..].
  specialize (Hk a s1). destruct (k a s1); [by etrans..|done].
Qed.

#[export] Instance same_run_refl : Reflexive (same_run (B := B)).
Proof. by intros s. Qed.

#[export] Instance same_run_trans : Transitive (same_run (B := B)).
Proof. intros s1 s2 s3 (? & ? & ?) (? & ? & ?). repeat split; congruence. Qed.

#[export] Instance levels_rise_refl level : Reflexive (levels_rise (B := B) level).
Proof. by intros s n. Qed.

#[export] Instance levels_rise_trans level : Transitive (levels_rise (B := B) level).
Proof. intros s1 s2 s3 H12 H23 n. specialize (H12 n). specialize (H23 n). lia. Qed.

(** *** The two ways in which the loop calls the backend *)

Lemma handle_count_Ok handles n st c st' :
  handle_count handles n st = Ok c st' ↔
  n ∈ handles ∧ c = (count_so_far n (backend st)).1
  ∧ st' = set_backend (count_so_far n (backend st)).2 st.
Proof.
  unfold handle_count. destruct (decide (n ∈ handles)) as [Hin|Hin].
  - destruct (count_so_far n (backend st)) as [c1 b1]. cbn. split.
    + by intros [= <- <-].
    + by intros (_ & -> & ->).
  - split; [done|]. by intros [? _].
Qed.

Lemma get_data_Ok handles cnt n up_to st d st' :
  get_data_from_handle handles cnt n up_to st = Ok d st' ↔
  (up_to = cnt ∧ d = None ∧ st' = st)
  ∨ (up_to ≠ cnt ∧ n ∈ handles
     ∧ d = Some (np_squeeze (fetch n cnt up_to (wait_for_values n up_to (backend st))).1)
     ∧ st' = log_fetch (mk_FetchCall n cnt up_to)
               (set_backend (fetch n cnt up_to (wait_for_values n up_to (backend st))).2 st)).
Proof.
  unfold get_data_from_handle. destruct (decide (up_to = cnt)) as [Heq|Hne].
  - split.
    + intros [= <- <-]. by left.
    + intros [(_ & -> & ->)|(? & _)]; done.
  - destruct (decide (n ∈ handles)) as [Hin|Hin].
    + destruct (fetch n cnt up_to (wait_for_values n up_to (backend st))) as [a b2]. cbn.
      split.
      * intros [= <- <-]. by right.
      * intros [(? & _)|(_ & _ & -> & ->)]; done.
    + split; [done|]. intros [(? & _)|(_ & ? & _)]; done.
Qed.

Lemma first_count_Ok handles i n loc st avail st' :
  first_count handles i n loc st = Ok avail st' ↔
  (i = 0 ∧ handle_count handles n st = Ok avail st')
  ∨ (i ≠ 0 ∧ avail = available_points loc ∧ st' = st).
Proof.
  unfold first_count. destruct (decide (i = 0)) as [Hi|Hi].
  - split; [by left|]. by intros [[_ ?]|[? _]].
  - unfold ret. split.
    + intros [= <- <-]. by right.
    + intros [[? _]|(_ & -> & ->)]; done.
Qed.

Lemma handle_count_same_run handles n : respects same_run (handle_count handles n).
Proof.
  intros s. unfold handle_count. destruct (decide (n ∈ handles)); [|done].
  by destruct (count_so_far n (backend s)).
Qed.

Lemma get_data_same_run handles cnt n up_to :
  respects same_run (get_data_from_handle handles cnt n up_to).
Proof.
  intros s. unfold get_data_from_handle.
  destruct (decide (up_to = cnt)); [done|]. destruct (decide (n ∈ handles)); [|done].
  by destruct (fetch n cnt up_to (wait_for_values n up_to (backend s))).
Qed.

Lemma handle_count_levels level handles n :
  monotone_counts level → respects (levels_rise level) (handle_count handles n).
Proof.
  intros Hmono s. unfold handle_count. destruct (decide (n ∈ handles)); [|done].
  pose proof (λ m, count_mono level Hmono m n (backend s)) as Hc.
  destruct (count_so_far n (backend s)) as [c b1]. exact Hc.
Qed.

Lemma get_data_levels level handles cnt n up_to :
  monotone_counts level →
  respects (levels_rise level) (get_data_from_handle handles cnt n up_to).
Proof.
  intros Hmono s. unfold get_data_from_handle.
  destruct (decide (up_to = cnt)); [done|]. destruct (decide (n ∈ handles)); [|done].
  pose proof (λ m, fetch_mono level Hmono m n cnt up_to
                     (wait_for_values n up_to (backend s))) as Hf.
  pose proof (λ m, wait_mono level Hmono m n up_to (backend s)) as Hw.
  destruct (fetch n cnt up_to (wait_for_values n up_to (backend s))) as [a b2].
  intros m. specialize (Hf m). specialize (Hw m). cbn in *. lia.
Qed.

(** *** Relations that the whole loop respects *)

Section Respected.
Variable R : relation (State B).
Context `{!Reflexive R, !Transitive R}.
Hypothesis R_count : ∀ handles n, respects R (handle_count handles n).
Hypothesis R_get : ∀ handles cnt n up_to,
  respects R (get_data_from_handle handles cnt n up_to).

Lemma first_count_respects handles i n loc : respects R (first_count handles i n loc).
Proof.
  unfold first_count. destruct (decide (i = 0)); [apply R_count | by apply respects_ret].
Qed.

Lemma collect_entry_respects self handles cnt i ds loc :
  respects R (collect_entry self handles cnt i ds loc).
Proof.
  unfold collect_entry. destruct (cls ds) as [| |iname qname].
  1,2: destruct (decide (name ds ∈ user_data self)); [by apply respects_ret|];
       destruct (decide (name ds ∉ handles)); [by apply respects_raise|];
       apply respects_bind; [done|apply first_count_respects|]; intros avail;
       apply respects_bind; [done|apply R_get|]; intros d;
       apply respects_bind; [done|by apply respects_lift_exn|]; intros rd';
       by apply respects_ret.
  apply respects_bind; [done|apply first_count_respects|]. intros avail.
  apply respects_bind; [done|apply R_get|]. intros idata.
  apply respects_bind; [done|apply R_get|]. intros qdata.
  destruct idata as [idata|], qdata as [qdata|]; try by apply respects_ret.
  apply respects_bind; [done|by apply respects_lift_exn|]. intros z.
  by apply respects_ret.
Qed.

Lemma collect_entries_respects self handles cnt i l loc :
  respects R (collect_entries self handles cnt i l loc).
Proof.
  revert i loc. induction l as [|ds l IH]; intros i loc; cbn.
  - by apply respects_ret.
  - apply respects_bind; [done|apply collect_entry_respects|]. intros loc'. apply IH.
Qed.

End Respected.

End EntryFacts.

Section EntryRuns.
Context {B : Type} `{!Backend B}.
Implicit Types (st : State B) (loc : Locals) (rd : gmap string pyvalue).

(** The three ways in which one turn of the [for] loop ends normally. *)
Lemma collect_entry_Ok self handles cnt i ds loc st loc' st' :
  collect_entry self handles cnt i ds loc st = Ok loc' st' →
  (∃ iname qname s1 idata s2 qdata,
      cls ds = ComplexOPXDataClass iname qname
      ∧ first_count handles i iname loc st = Ok (available_points loc') s1
      ∧ get_data_from_handle handles cnt iname (available_points loc') s1 = Ok idata s2
      ∧ get_data_from_handle handles cnt qname (available_points loc') s2 = Ok qdata st'
      ∧ complex_stored ds idata qdata (return_data loc) (return_data loc'))
  ∨ (skipped self ds ∧ loc' = loc ∧ st' = st)
  ∨ (is_ComplexOPXData ds = false ∧ (name ds ∉ user_data self) ∧ name ds ∈ handles
     ∧ ∃ s1 d,
         first_count handles i (name ds) loc st = Ok (available_points loc') s1
         ∧ get_data_from_handle handles cnt (name ds) (available_points loc') s1 = Ok d st'
         ∧ timed_block ds (name ds) (<[name ds := fetched_value d]> (return_data loc))
           = inr (return_data loc')).
Proof.
  unfold collect_entry, skipped, is_ComplexOPXData.
  destruct (cls ds) as [| |iname qname] eqn:Ecls.
  1,2: destruct (decide (name ds ∈ user_data self)) as [Hu|Hu];
       [intros [= <- <-]; right; left; done|];
       destruct (decide (name ds ∉ handles)) as [Hh|Hh]; [done|];
       intros Hrun; right; right;
       apply bind_Ok in Hrun as (avail & s1 & Hfirst & Hrun);
       apply bind_Ok in Hrun as (d & s2 & Hget & Hrun);
       apply bind_Ok in Hrun as (rd' & s3 & Htb & Hrun);
       apply lift_exn_Ok in Htb as [Htb ->];
       injection Hrun as <- <-; cbn;
       (split; [done|]); (split; [done|]);
       (split; [by apply dec_stable|]); eauto.
  intros Hrun. left.
  apply bind_Ok in Hrun as (avail & s1 & Hfirst & Hrun).
  apply bind_Ok in Hrun as (idata & s2 & Hi & Hrun).
  apply bind_Ok in Hrun as (qdata & s3 & Hq & Hrun).
  exists iname, qname, s1, idata, s2, qdata.
  destruct idata as [idata|], qdata as [qdata|].
  2-4: injection Hrun as <- <-; cbn; done.
  apply bind_Ok in Hrun as (z & s4 & Hz & Hrun).
  apply lift_exn_Ok in Hz as [Hz ->]. injection Hrun as <- <-. cbn.
  repeat (split; [done|]). eauto.
Qed.

Lemma first_count_log handles i n loc st avail st' :
  first_count handles i n loc st = Ok avail st' → fetch_log st' = fetch_log st.
Proof.
  intros [[_ Hc]|(_ & _ & ->)]%first_count_Ok; [|done].
  apply handle_count_Ok in Hc as (_ & _ & ->). done.
Qed.

Lemma get_data_log handles cnt n up_to st d st' :
  get_data_from_handle handles cnt n up_to st = Ok d st' → fetched_only cnt up_to st st'.
Proof.
  intros [(_ & _ & ->)|(_ & _ & _ & ->)]%get_data_Ok.
  - by exists [].
  - exists [mk_FetchCall n cnt up_to]. split; [done|]. by repeat constructor.
Qed.

Lemma fetched_only_trans cnt hi st1 st2 st3 :
  fetched_only cnt hi st1 st2 → fetched_only cnt hi st2 st3 → fetched_only cnt hi st1 st3.
Proof.
  intros (n1 & E1 & F1) (n2 & E2 & F2). exists (n2 ++ n1). split.
  - by rewrite E2, E1, app_assoc.
  - by apply Forall_app.
Qed.

Lemma fetched_only_refl cnt hi st st' :
  fetch_log st' = fetch_log st → fetched_only cnt hi st st'.
Proof. intros E. by exists []. Qed.

(** The count is read on the first turn of the loop only. *)
Lemma collect_entry_avail self handles cnt i ds loc st loc' st' :
  collect_entry self handles cnt i ds loc st = Ok loc' st' →
  i ≠ 0 → available_points loc' = available_points loc.
Proof.
  intros Hrun Hi. apply collect_entry_Ok in Hrun
    as [(? & ? & s1 & ? & ? & ? & _ & Hf & _)|[(_ & -> & _)|(_ & _ & _ & s1 & d & Hf & _)]];
    [|done|].
  all: apply first_count_Ok in Hf as [[? _]|(_ & ? & _)]; done.
Qed.

(** Every fetch of a turn has the range from the counter to
    [available_points]. *)
Lemma collect_entry_log self handles cnt i ds loc st loc' st' :
  collect_entry self handles cnt i ds loc st = Ok loc' st' →
  fetched_only cnt (available_points loc') st st'.
Proof.
  intros Hrun. apply collect_entry_Ok in Hrun
    as [(? & ? & s1 & ? & s2 & ? & _ & Hf & Hi & Hq & _)
       |[(_ & _ & ->)|(_ & _ & _ & s1 & d & Hf & Hd & _)]].
  - apply first_count_log in Hf. apply get_data_log in Hi, Hq.
    eapply fetched_only_trans; [by apply fetched_only_refl|].
    by eapply fetched_only_trans.
  - by apply fetched_only_refl.
  - apply first_count_log in Hf. apply get_data_log in Hd.
    eapply fetched_only_trans; [by apply fetched_only_refl|done].
Qed.

(** *** The block for timed columns *)

Lemma timed_block_untimed ds nm rd :
  is_TimedOPXData ds = false → timed_block ds nm rd = inr rd.
Proof. unfold timed_block. by intros ->. Qed.

Lemma timed_block_none ds nm rd :
  rd !! name ds = Some PyNone → timed_block ds nm rd = inr rd.
Proof. unfold timed_block. intros ->. by destruct (is_TimedOPXData ds). Qed.

Lemma timed_block_inr ds nm rd rd' :
  timed_block ds nm rd = inr rd' →
  rd' = rd ∨ (is_TimedOPXData ds = true ∧ ∃ t, rd' = <[time_points_name nm := RealArray t]> rd).
Proof.
  unfold timed_block. destruct (is_TimedOPXData ds); [|intros [= <-]; by left].
  destruct (rd !! name ds) as [v|]; [|done].
  destruct (pv_shape v) as [sh|]; [|intros [= <-]; by left].
  destruct (shape_last sh) as [e|n]; [done|].
  destruct (decide (length sh = 1)); [intros [= <-]; right; eauto|].
  destruct (decide (length sh = 2)); [|done].
  destruct (np_reshape_rows _ _) as [e'|t]; [done|]. intros [= <-]. right. eauto.
Qed.

(** *** What a turn writes into the dictionary *)

Lemma collect_entry_frame self handles cnt i ds loc st loc' st' k :
  collect_entry self handles cnt i ds loc st = Ok loc' st' →
  k ≠ name ds → (is_TimedOPXData ds = true → k ≠ time_points_name (name ds)) →
  return_data loc' !! k = return_data loc !! k.
Proof.
  intros Hrun Hk Htk. apply collect_entry_Ok in Hrun
    as [(? & ? & s1 & idata & s2 & qdata & _ & _ & _ & _ & Hst)
       |[(_ & -> & _)|(_ & _ & _ & s1 & d & _ & _ & Htb)]]; [|done|].
  - unfold complex_stored in Hst. destruct idata, qdata; try by rewrite Hst.
    destruct Hst as (z & _ & ->). by rewrite lookup_insert_ne.
  - apply timed_block_inr in Htb as [->|(Ht & t & ->)].
    + by rewrite lookup_insert_ne.
    + rewrite lookup_insert_ne by (symmetry; by apply Htk). by rewrite lookup_insert_ne.
Qed.

(** With nothing new to fetch, a turn stores [None] under the column's name
    or stores nothing. *)
Lemma collect_entry_nothing_new self handles cnt i ds loc st loc' st' :
  collect_entry self handles cnt i ds loc st = Ok loc' st' →
  available_points loc' = cnt →
  return_data loc' = return_data loc
  ∨ (is_ComplexOPXData ds = false ∧ (name ds ∉ user_data self)
     ∧ return_data loc' = <[name ds := PyNone]> (return_data loc)).
Proof.
  intros Hrun Hav. apply collect_entry_Ok in Hrun
    as [(? & ? & s1 & idata & s2 & qdata & _ & _ & Hi & _ & Hst)
       |[(_ & -> & _)|(Hc & Hu & _ & s1 & d & _ & Hd & Htb)]]; [|by left|].
  - left. apply get_data_Ok in Hi as [(_ & -> & _)|(Hne & _)]; [done|]. by destruct Hne.
  - right. apply get_data_Ok in Hd as [(_ & -> & _)|(Hne & _)]; [|by destruct Hne].
    cbn in Htb. rewrite timed_block_none in Htb by apply lookup_insert_eq.
    injection Htb as <-. done.
Qed.

(** *** The loop as a whole *)

Lemma collect_entries_app self handles cnt i pre l loc st loc2 st2 :
  collect_entries self handles cnt i (pre ++ l) loc st = Ok loc2 st2 ↔
  ∃ loc1 st1, collect_entries self handles cnt i pre loc st = Ok loc1 st1
              ∧ collect_entries self handles cnt (i + length pre) l loc1 st1 = Ok loc2 st2.
Proof.
  revert i loc st. induction pre as [|ds pre IH]; intros i loc st; cbn.
  - rewrite Nat.add_0_r. split; [eauto|]. by intros (? & ? & [= <- <-] & ?).
  - rewrite bind_Ok. split.
    + intros (loc' & st' & He & Hrest). apply IH in Hrest as (loc1 & st1 & Hpre & Hl).
      exists loc1, st1. split.
      * apply bind_Ok. eauto.
      * by replace (i + S (length pre)) with (S i + length pre) by lia.
    + intros (loc1 & st1 & Hpre & Hl). apply bind_Ok in Hpre as (loc' & st' & He & Hpre).
      exists loc', st'. split; [done|]. apply IH. exists loc1, st1. split; [done|].
      by replace (S i + length pre) with (i + S (length pre)) by lia.
Qed.

Lemma collect_entries_avail self handles cnt i l loc st loc' st' :
  collect_entries self handles cnt (S i) l loc st = Ok loc' st' →
  available_points loc' = available_points loc.
Proof.
  revert i loc st. induction l as [|ds l IH]; intros i loc st; cbn.
  - by intros [= <- <-].
  - intros (loc1 & st1 & He & Hrest)%bind_Ok.
    apply IH in Hrest. apply collect_entry_avail in He; [congruence|lia].
Qed.

Lemma collect_entries_log self handles cnt i l loc st loc' st' :
  collect_entries self handles cnt i l loc st = Ok loc' st' →
  fetched_only cnt (available_points loc') st st'.
Proof.
  revert i loc st. induction l as [|ds l IH]; intros i loc st; cbn.
  - intros [= <- <-]. by apply fetched_only_refl.
  - intros (loc1 & st1 & He & Hrest)%bind_Ok.
    pose proof (collect_entries_avail _ _ _ _ _ _ _ _ _ Hrest) as Hav.
    apply IH in Hrest. apply collect_entry_log in He. rewrite <- Hav in He.
    by eapply fetched_only_trans.
Qed.

(** A key that no column of [l] writes keeps its value. *)
Lemma collect_entries_frame self handles cnt i l loc st loc' st' k :
  collect_entries self handles cnt i l loc st = Ok loc' st' →
  (∀ ds, ds ∈ l → k ≠ name ds
                  ∧ (is_TimedOPXData ds = true → k ≠ time_points_name (name ds))) →
  return_data loc' !! k = return_data loc !! k.
Proof.
  revert i loc st. induction l as [|ds l IH]; intros i loc st; cbn.
  - by intros [= <- <-].
  - intros (loc1 & st1 & He & Hrest)%bind_Ok Hk.
    rewrite (IH _ _ _ Hrest) by (intros ds' Hds'; apply Hk; by right).
    destruct (Hk ds) as [Hn Ht]; [by left|]. by eapply collect_entry_frame.
Qed.

(** With nothing new to fetch, a key that holds [None] keeps it. *)
Lemma collect_entries_keep_none self handles cnt i l loc st loc' st' k :
  collect_entries self handles cnt (S i) l loc st = Ok loc' st' →
  available_points loc = cnt →
  return_data loc !! k = Some PyNone → return_data loc' !! k = Some PyNone.
Proof.
  revert i loc st. induction l as [|ds l IH]; intros i loc st; cbn.
  - by intros [= <- <-].
  - intros (loc1 & st1 & He & Hrest)%bind_Ok Hav Hk.
    pose proof (collect_entry_avail _ _ _ _ _ _ _ _ _ He ltac:(lia)) as Hav1.
    apply (IH _ _ _ Hrest); [congruence|].
    apply collect_entry_nothing_new in He as [->|(_ & _ & ->)]; [done| |congruence].
    destruct (decide (name ds = k)) as [->|Hne].
    + apply lookup_insert_eq.
    + by rewrite lookup_insert_ne.
Qed.

End EntryRuns.

(** ** One turn of the [while] loop *)

Section IterationFacts.
Context {B : Type} `{!Backend B}.
Implicit Types (st : State B) (loc : Locals) (rd : gmap string pyvalue).

Lemma bind_assoc {S A C D} (m : M S A) (k : A → M S C) (h : C → M S D) s :
  bind (bind m k) h s = bind m (λ a, bind (k a) h) s.
Proof. unfold bind. by destruct (m s). Qed.

Lemma collect_entries_app_eq self handles cnt i pre l loc st :
  collect_entries self handles cnt i (pre ++ l) loc st
  = bind (collect_entries self handles cnt i pre loc)
         (collect_entries self handles cnt (i + length pre) l) st.
Proof.
  revert i loc st. induction pre as [|ds pre IH]; intros i loc st; cbn.
  - by rewrite Nat.add_0_r.
  - unfold bind.
    destruct (collect_entry self handles cnt i ds loc st) as [loc1 st1| |]; [|done..].
    rewrite IH. unfold bind.
    by replace (i + S (length pre)) with (S i + length pre) by lia.
Qed.

Lemma collect_entries_same_run self handles cnt i l loc st loc' st' :
  collect_entries self handles cnt i l loc st = Ok loc' st' → same_run st st'.
Proof.
  intros Hrun.
  pose proof (collect_entries_respects same_run handle_count_same_run get_data_same_run
                self handles cnt i l loc st) as Hr.
  by rewrite Hrun in Hr.
Qed.

Lemma wait_for_data_Ok fuel batchsize st st' :
  _wait_for_data fuel batchsize st = Ok () st' →
  ∃ handles, result_handles (communicator st) = Some handles
             ∧ wait_loop fuel (counter (communicator st)) batchsize handles st = Ok () st'.
Proof.
  unfold _wait_for_data. destruct (result_handles (communicator st)); [eauto|done].
Qed.

(** [_wait_for_data] leaves everything but the backend and [active] alone. *)
Lemma wait_for_data_frame fuel batchsize st st' :
  _wait_for_data fuel batchsize st = Ok () st' →
  globals st' = globals st ∧ fetch_log st' = fetch_log st
  ∧ cleanup_calls st' = cleanup_calls st
  ∧ counter (communicator st') = counter (communicator st)
  ∧ self_managed (communicator st') = self_managed (communicator st)
  ∧ result_handles (communicator st') = result_handles (communicator st).
Proof.
  intros (handles & _ & Hw)%wait_for_data_Ok.
  apply wait_loop_Ok in Hw as (k & _ & _ & _ & _ & Hg & Hl & Hc & Hcomm).
  rewrite Hcomm. by destruct (bool_decide _).
Qed.

Lemma assemble_Ok self handles st rd st' :
  assemble self handles st = Ok rd st' ↔
  ∃ loc st1,
    collect_entries self handles (counter (communicator st)) 0 (specs self)
      (mk_Locals ∅ 0) st = Ok loc st1
    ∧ rd = return_data loc
    ∧ st' = set_communicator (set_counter (available_points loc) (communicator st1)) st1.
Proof.
  unfold assemble. rewrite bind_Ok. split.
  - intros (loc & st1 & Hrun & [= <- <-]). eauto.
  - intros (loc & st1 & Hrun & -> & ->). eauto.
Qed.

(** The assembler never touches [active], the session or the handles. *)
Lemma assemble_frame self handles st rd st' :
  assemble self handles st = Ok rd st' →
  globals st' = globals st ∧ cleanup_calls st' = cleanup_calls st
  ∧ active (communicator st') = active (communicator st)
  ∧ self_managed (communicator st') = self_managed (communicator st)
  ∧ result_handles (communicator st') = result_handles (communicator st).
Proof.
  intros (loc & st1 & Hrun & _ & ->)%assemble_Ok.
  apply collect_entries_same_run in Hrun as (Hc & Hg & Hn). cbn. by rewrite Hc.
Qed.

Lemma collect_iteration_Ok self fuel batchsize st ys st' :
  collect_iteration self fuel batchsize st = (ys, Ok () st') →
  ∃ handles st1 rd,
    result_handles (communicator st) = Some handles
    ∧ _wait_for_data fuel batchsize st = Ok () st1
    ∧ assemble self handles st1 = Ok rd st'
    ∧ ys = [Some rd].
Proof.
  unfold collect_iteration.
  destruct (result_handles (communicator st)) as [handles|] eqn:Eh.
  - destruct (_wait_for_data fuel batchsize st) as [[] st1| |] eqn:Ew; [|done..].
    destruct (assemble self handles st1) as [rd st2| |] eqn:Ea; [|done..].
    intros [= <- <-]. by exists handles, st1, rd.
  - unfold _wait_for_data. by rewrite Eh.
Qed.

Lemma backing_stream_plain ds :
  is_ComplexOPXData ds = false → backing_stream ds = name ds.
Proof. unfold is_ComplexOPXData, backing_stream. by destruct (cls ds). Qed.

End IterationFacts.

(** *** C1: the bound of the fetches *)

(** C1: when the plan starts with a column that has a backing stream (it is
    not a skipped synthetic column), a turn that yields has read, right after
    [_wait_for_data] returned, the count of that stream (the I stream of a
    complex column); every fetch of the turn has the range from the stored
    counter to that count, and the counter ends as that count. *)
Theorem C1_available_points `{Backend B} (self : RecordOPXdata) (fuel : nat)
    (batchsize : Z) (st st' : State B) ys first rest :
  specs self = first :: rest →
  ¬ skipped self first →
  collect_iteration self fuel batchsize st = (ys, Ok () st') →
  ∃ st1, _wait_for_data fuel batchsize st = Ok () st1
    ∧ let available := (count_so_far (backing_stream first) (backend st1)).1 in
      counter (communicator st') = available
      ∧ ∃ new, fetch_log st' = new ++ fetch_log st
               ∧ Forall (λ f, fc_lo f = counter (communicator st)
                              ∧ fc_hi f = available) new.
Proof.
  intros Hspecs Hfirst (handles & st1 & rd & Hh & Hw & Ha & _)%collect_iteration_Ok.
  exists st1. split; [done|].
  apply wait_for_data_frame in Hw as (_ & Hl & _ & Hcnt & _).
  apply assemble_Ok in Ha as (loc & st2 & Hrun & _ & ->). rewrite Hspecs in Hrun.
  pose proof (collect_entries_log _ _ _ _ _ _ _ _ _ Hrun) as Hlog.
  cbn in Hrun. apply bind_Ok in Hrun as (loc1 & s1 & He & Hrest).
  apply collect_entries_avail in Hrest.
  assert (available_points loc1
          = (count_so_far (backing_stream first) (backend st1)).1) as Hav.
  { apply collect_entry_Ok in He
      as [(iname & ? & ? & ? & ? & ? & Hcls & Hf & _)
         |[(Hs & _)|(Hc & _ & _ & ? & ? & Hf & _)]]; [|done|].
    - apply first_count_Ok in Hf as [[_ Hf]|[? _]]; [|done].
      apply handle_count_Ok in Hf as (_ & -> & _).
      unfold backing_stream. by rewrite Hcls.
    - apply first_count_Ok in Hf as [[_ Hf]|[? _]]; [|done].
      apply handle_count_Ok in Hf as (_ & -> & _). by rewrite backing_stream_plain. }
  cbn. rewrite Hrest, Hav in *. split; [done|].
  destruct Hlog as (new & Hnew & Hall). exists new. by rewrite Hnew, Hl, <- Hcnt.
Qed.

Lemma C1_available_points_witness :
  let self := RecordOPXdata_init [indep "x"] in
  let st' := after_turn self 10 100 scalar_start in
  ∃ st1, _wait_for_data 10 100 scalar_start = Ok () st1
    ∧ let available := (count_so_far (backing_stream (indep "x")) (backend st1)).1 in
      counter (communicator st') = available
      ∧ ∃ new, fetch_log st' = new ++ fetch_log scalar_start
               ∧ Forall (λ f, fc_lo f = counter (communicator scalar_start)
                              ∧ fc_hi f = available) new.
Proof.
  intros self st'.
  apply (C1_available_points self 10 100 scalar_start st'
           (collect_iteration self 10 100 scalar_start).1 (indep "x") []).
  - reflexivity.
  - unfold skipped. cbn. intros [_ Hin]. inversion Hin.
  - vm_compute. reflexivity.
Defined.

(** *** C2: when [_wait_for_data] returns *)

(** C2: [_wait_for_data] returns only on a poll [k] on which every handle is
    satisfied (the job was seen stopped, or the count is [batchsize] beyond
    the stored counter), no earlier poll being so; it leaves [active] false
    exactly when on some poll up to [k] no handle saw the job processing; and
    once [active] is false, the turn that is under way is the last: after
    its [yield] the loop is left without another turn. *)
Theorem C2_wait_for_data `{Backend B} (fuel : nat) (batchsize : Z) (st st' : State B) :
  active (communicator st) = true →
  _wait_for_data fuel batchsize st = Ok () st' →
  ∃ handles k,
    result_handles (communicator st) = Some handles ∧ k < fuel
    ∧ let cnt := counter (communicator st) in
      let seen j := (observe handles (poll_start handles j (backend st))).1 in
      Forall (satisfied cnt batchsize) (seen k)
      ∧ (∀ j, j < k → ¬ Forall (satisfied cnt batchsize) (seen j))
      ∧ (active (communicator st') = false
         ↔ ∃ j, j ≤ k ∧ Forall (λ o, seen_processing o = false) (seen j))
      ∧ (active (communicator st') = false →
         ∀ self rd st'' turns fuel' batchsize',
           assemble self handles st' = Ok rd st'' →
           collect_loop self (S turns) fuel' batchsize' st'' = ([], inl None, st'')).
Proof.
  intros Hact (handles & Hh & Hw)%wait_for_data_Ok.
  apply wait_loop_Ok in Hw as (k & Hk & Hbefore & Hsat & _ & _ & _ & _ & Hcomm).
  exists handles, k. split; [done|]. split; [done|]. cbn.
  split; [done|]. split; [done|]. split.
  - rewrite Hcomm. split.
    + destruct (decide (Forall (λ o, seen_processing o = false)
                         (observe handles (poll_start handles k (backend st))).1))
        as [Hnp|Hnp].
      * intros _. by exists k.
      * rewrite bool_decide_eq_false_2 by done. congruence.
    + intros (j & Hj & Hnp).
      destruct (decide (j = k)) as [->|Hne].
      * by rewrite bool_decide_eq_true_2.
      * destruct (Hbefore j); [lia|]. by apply none_processing_satisfied.
  - intros Hoff self rd st'' turns fuel' batchsize' Ha.
    apply assemble_frame in Ha as (_ & _ & Ha & _). cbn. by rewrite Ha, Hoff.
Qed.

Lemma C2_wait_for_data_witness :
  let st' := state_after (_wait_for_data 10 100) scalar_start in
  active (communicator scalar_start) = true
  ∧ _wait_for_data 10 100 scalar_start = Ok () st'
  ∧ ∃ handles k,
      result_handles (communicator scalar_start) = Some handles ∧ k < 10
      ∧ let cnt := counter (communicator scalar_start) in
        let seen j := (observe handles (poll_start handles j (backend scalar_start))).1 in
        Forall (satisfied cnt 100) (seen k)
        ∧ (∀ j, j < k → ¬ Forall (satisfied cnt 100) (seen j))
        ∧ (active (communicator st') = false
           ↔ ∃ j, j ≤ k ∧ Forall (λ o, seen_processing o = false) (seen j))
        ∧ (active (communicator st') = false →
           ∀ self rd st'' turns fuel' batchsize',
             assemble self handles st' = Ok rd st'' →
             collect_loop self (S turns) fuel' batchsize' st'' = ([], inl None, st'')).
Proof.
  intros st'.
  assert (active (communicator scalar_start) = true) as Hact by reflexivity.
  assert (_wait_for_data 10 100 scalar_start = Ok () st') as Hw
    by (vm_compute; reflexivity).
  split; [exact Hact|]. split; [exact Hw|].
  exact (C2_wait_for_data 10 100 scalar_start st' Hact Hw).
Defined.

(** *** C6: a column that the backend does not know *)

(** C6: when a turn reaches a column that is neither complex nor synthetic
    and whose name is not among the result handles, [collect] raises
    [RuntimeError] without yielding anything more, and [cleanup] has been
    entered exactly once when the exception leaves the generator. *)
Theorem C6_unknown_stream `{Backend B} (self : RecordOPXdata) (turns fuel : nat)
    (batchsize : Z) (st st1 st2 : State B) handles pre ds post loc1 :
  active (communicator st) = true →
  result_handles (communicator st) = Some handles →
  session_open (globals st) →
  _wait_for_data fuel batchsize st = Ok () st1 →
  specs self = pre ++ ds :: post →
  collect_entries self handles (counter (communicator st)) 0 pre (mk_Locals ∅ 0) st1
    = Ok loc1 st2 →
  is_ComplexOPXData ds = false →
  name ds ∉ user_data self →
  name ds ∉ handles →
  ∃ st', collect self (S turns) fuel batchsize st = ([], Raised RuntimeError, st')
         ∧ cleanup_calls st' = S (cleanup_calls st).
Proof.
  intros Hact Hh Hopen Hw Hspecs Hpre Hc Hu Hn.
  pose proof (wait_for_data_frame _ _ _ _ Hw) as (Hg1 & _ & Hc1 & Hcnt1 & _).
  pose proof (collect_entries_same_run _ _ _ _ _ _ _ _ _ Hpre) as (_ & Hg2 & Hc2).
  assert (assemble self handles st1 = Raise RuntimeError st2) as Ha.
  { unfold assemble. rewrite Hcnt1, Hspecs. unfold bind at 1.
    rewrite collect_entries_app_eq. unfold bind at 1. rewrite Hpre. cbn.
    unfold bind at 1. unfold collect_entry.
    unfold is_ComplexOPXData in Hc. destruct (cls ds); [| |done].
    all: destruct (decide (name ds ∈ user_data self)); [done|].
    all: destruct (decide (name ds ∉ handles)); done. }
  assert (session_open (globals st2)) as Hopen2 by (by rewrite Hg2, Hg1).
  destruct (cleanup_open st2 Hopen2) as (st' & Hcl & _ & _ & _ & Hn' & _).
  exists st'. split; [|congruence].
  unfold collect. cbn. rewrite Hact. unfold collect_iteration. rewrite Hh, Hw, Ha.
  by rewrite Hcl.
Qed.

Lemma C6_unknown_stream_witness :
  let self := RecordOPXdata_init [indep "bogus"] in
  let st1 := state_after (_wait_for_data 10 100) scalar_start in
  ∃ st', collect self 1 10 100 scalar_start = ([], Raised RuntimeError, st')
         ∧ cleanup_calls st' = S (cleanup_calls scalar_start).
Proof.
  intros self st1.
  apply (C6_unknown_stream self 0 10 100 scalar_start st1 st1 ["x"] [] (indep "bogus") []
           (mk_Locals ∅ 0)).
  - reflexivity.
  - reflexivity.
  - split; discriminate.
  - vm_compute. reflexivity.
  - reflexivity.
  - reflexivity.
  - reflexivity.
  - cbn. intros Hin. inversion Hin.
  - cbn. intros Hin. apply list_elem_of_In in Hin. cbn in Hin.
    destruct Hin as [Heq|[]]. discriminate Heq.
Defined.

(** *** C10: nothing new to fetch *)

(** C10: when a turn reaches a column that is neither complex nor synthetic,
    whose name is among the result handles, with [available_points] equal to
    the stored counter, the column is processed without an exception and
    stores [None] under its name; the dictionary that the turn yields maps
    the name to [None]. *)
Theorem C10_none_when_nothing_new `{Backend B} (self : RecordOPXdata) handles
    (st0 st1 s1 : State B) pre ds post loc1 :
  let cnt := counter (communicator st0) in
  specs self = pre ++ ds :: post →
  collect_entries self handles cnt 0 pre (mk_Locals ∅ 0) st0 = Ok loc1 st1 →
  is_ComplexOPXData ds = false →
  name ds ∉ user_data self →
  name ds ∈ handles →
  first_count handles (length pre) (name ds) loc1 st1 = Ok cnt s1 →
  collect_entry self handles cnt (length pre) ds loc1 st1
    = Ok (mk_Locals (<[name ds := PyNone]> (return_data loc1)) cnt) s1
  ∧ ∀ rd st', assemble self handles st0 = Ok rd st' → rd !! name ds = Some PyNone.
Proof.
  intros cnt Hspecs Hpre Hc Hu Hin Hf.
  assert (collect_entry self handles cnt (length pre) ds loc1 st1
          = Ok (mk_Locals (<[name ds := PyNone]> (return_data loc1)) cnt) s1) as He.
  { unfold collect_entry. unfold is_ComplexOPXData in Hc.
    destruct (cls ds); [| |done].
    all: destruct (decide (name ds ∈ user_data self)); [done|].
    all: destruct (decide (name ds ∉ handles)); [done|].
    all: unfold bind at 1; rewrite Hf; unfold bind at 1.
    all: unfold get_data_from_handle at 1.
    all: destruct (decide (cnt = cnt)) as [_|Hne]; [|by destruct Hne].
    all: cbn; unfold bind at 1.
    all: rewrite timed_block_none by apply lookup_insert_eq; done. }
  split; [exact He|].
  intros rd st' (loc & st2 & Hrun & -> & _)%assemble_Ok.
  rewrite Hspecs in Hrun. fold cnt in Hrun.
  apply collect_entries_app in Hrun as (loc1' & st1' & Hpre' & Hrun).
  rewrite Hpre in Hpre'. injection Hpre' as <- <-.
  cbn in Hrun.
  apply bind_Ok in Hrun as (loc2 & s2 & He' & Hrest).
  rewrite He in He'. injection He' as <- <-.
  eapply collect_entries_keep_none; [exact Hrest|done|]. cbn. apply lookup_insert_eq.
Qed.

Lemma C10_none_when_nothing_new_witness :
  let self := RecordOPXdata_init [indep "x"] in
  let s1 := state_after (first_count ["x"] 0 "x" (mk_Locals ∅ 0)) idle_start in
  collect_entry self ["x"] 0 0 (indep "x") (mk_Locals ∅ 0) idle_start
    = Ok (mk_Locals (<["x" := PyNone]> ∅) 0) s1
  ∧ ∀ rd st', assemble self ["x"] idle_start = Ok rd st' → rd !! "x" = Some PyNone.
Proof.
  intros self s1.
  apply (C10_none_when_nothing_new self ["x"] idle_start idle_start s1 [] (indep "x") []
           (mk_Locals ∅ 0)).
  - reflexivity.
  - reflexivity.
  - reflexivity.
  - cbn. intros Hin. inversion Hin.
  - apply list_elem_of_here.
  - vm_compute. reflexivity.
Defined.

(** ** numpy *)

Lemma prod_dims_app s1 s2 : prod_dims (s1 ++ s2) = prod_dims s1 * prod_dims s2.
Proof.
  unfold prod_dims. induction s1 as [|d s1 IH]; cbn; [lia|]. rewrite IH. lia.
Qed.

Lemma prod_dims_rev s : prod_dims (rev s) = prod_dims s.
Proof.
  induction s as [|d s IH]; cbn; [done|].
  rewrite prod_dims_app, IH. unfold prod_dims. cbn. lia.
Qed.

Lemma broadcast_dims_same r : broadcast_dims r r = Some r.
Proof.
  induction r as [|d r IH]; cbn; [done|]. rewrite IH. by rewrite decide_True.
Qed.

Lemma source_index_same rs k : k < prod_dims rs → source_index k rs rs = k.
Proof.
  revert k. induction rs as [|d rs IH]; intros k Hk; cbn in *.
  - unfold prod_dims in Hk. cbn in Hk. lia.
  - change (foldr Nat.mul 1 rs) with (prod_dims rs) in *.
    assert (d ≠ 0) as Hd by (intros ->; lia).
    rewrite IH by (apply Nat.Div0.div_lt_upper_bound; lia).
    destruct (decide (d = 1)) as [->|Hne].
    + rewrite Nat.div_1_r. lia.
    + pose proof (Nat.div_mod_eq k d). lia.
Qed.

(** On operands of one shape a binary ufunc works element by element. *)
Lemma np_binop_same_shape {A C D} (f : A → C → D) dA dC (a : ndarray A) (b : ndarray C) :
  shape a = shape b → wf_ndarray a → wf_ndarray b →
  np_binop f dA dC a b = inr (mk_ndarray (shape a) (zip_with f (data a) (data b))).
Proof.
  unfold wf_ndarray, np_binop. intros Hs Ha Hb. rewrite <- Hs in *.
  rewrite broadcast_dims_same, rev_involutive. do 2 f_equal.
  rewrite prod_dims_rev. apply list_eq. intros i.
  rewrite list_lookup_fmap, lookup_zip_with.
  destruct (decide (i < prod_dims (shape a))) as [Hi|Hi].
  - rewrite lookup_seq_lt by done. cbn.
    rewrite source_index_same by (by rewrite prod_dims_rev).
    destruct (lookup_lt_is_Some_2 (data a) i) as [x Hx]; [lia|].
    destruct (lookup_lt_is_Some_2 (data b) i) as [y Hy]; [lia|].
    rewrite !nth_lookup, Hx, Hy. done.
  - rewrite lookup_seq_ge by lia. cbn.
    rewrite (lookup_ge_None_2 (data a)) by lia. done.
Qed.

Lemma np_squeeze_wf {A} (a : ndarray A) : wf_ndarray a → wf_ndarray (np_squeeze a).
Proof.
  unfold wf_ndarray, np_squeeze. cbn. intros ->.
  induction (shape a) as [|d s IH]; [done|].
  rewrite filter_cons. unfold prod_dims in *. cbn.
  destruct (decide (d ≠ 1)) as [Hd|Hd]; cbn; [by rewrite IH|].
  apply dec_stable in Hd. subst d. rewrite IH. lia.
Qed.

(** The value that [idata + 1j*qdata] holds for the samples [x] and [y]. *)
Lemma iq_value x y : Cadd (of_real x) (Cmul Cj (of_real y)) = mk_complex x y.
Proof. unfold Cadd, Cmul, Cj, of_real. cbn. f_equal; lia. Qed.

Lemma iq_combine_same_shape (i q : ndarray Z) :
  shape i = shape q → wf_ndarray i → wf_ndarray q →
  iq_combine i q
  = inr (mk_ndarray (shape i)
           (zip_with (λ x y, Cadd (of_real x) (Cmul Cj (of_real y))) (data i) (data q))).
Proof.
  intros Hs Hi Hq. unfold iq_combine.
  rewrite np_binop_same_shape; [|done..|].
  - cbn. by rewrite zip_with_fmap_r.
  - unfold wf_ndarray, np_scale_j in *. cbn. by rewrite length_fmap.
Qed.

(** ** Plans with distinct names *)

Lemma distinct_names (l : list DataSpec) a b :
  NoDup (name <$> l) → a ∈ l → b ∈ l → a ≠ b → name a ≠ name b.
Proof.
  intros Hnd [i Hi]%list_elem_of_lookup [j Hj]%list_elem_of_lookup Hab Hn.
  assert (i = j) as ->.
  { eapply NoDup_lookup; [exact Hnd| |]; rewrite list_lookup_fmap.
    - by rewrite Hi.
    - rewrite Hj. cbn. by rewrite Hn. }
  congruence.
Qed.

(** In a plan with distinct names no other column writes the key of a
    complex column. *)
Lemma complex_key_untouched decls ds iname qname e :
  NoDup (name <$> specs (RecordOPXdata_init decls)) →
  ds ∈ specs (RecordOPXdata_init decls) →
  cls ds = ComplexOPXDataClass iname qname →
  e ∈ specs (RecordOPXdata_init decls) → name e ≠ name ds →
  name ds ≠ name e
  ∧ (is_TimedOPXData e = true → name ds ≠ time_points_name (name e)).
Proof.
  intros Hnd Hds Hcls He Hne. split; [done|].
  intros Ht. destruct (timed_in_specs decls e He Ht) as (_ & _ & _ & Hu).
  apply user_data_in_specs in Hu.
  change (name ds ≠ name (indep (time_points_name (name e)))).
  eapply distinct_names; [exact Hnd|done..|].
  intros ->. discriminate Hcls.
Qed.

(** *** C3: complex columns *)

Section ComplexColumn.
Context {B : Type} `{!Backend B}.

(** The dictionary entry of a complex column after the whole [for] loop is
    the one that its own turn left. *)
Lemma complex_entry_final decls handles cnt (st0 st1 s3 : State B) pre ds post
    iname qname loc1 loc2 loc3 st3 :
  let self := RecordOPXdata_init decls in
  NoDup (name <$> specs self) →
  specs self = pre ++ ds :: post →
  cls ds = ComplexOPXDataClass iname qname →
  collect_entries self handles cnt 0 pre (mk_Locals ∅ 0) st0 = Ok loc1 st1 →
  collect_entry self handles cnt (length pre) ds loc1 st1 = Ok loc2 s3 →
  collect_entries self handles cnt (S (length pre)) post loc2 s3 = Ok loc3 st3 →
  return_data loc1 !! name ds = None
  ∧ return_data loc3 !! name ds = return_data loc2 !! name ds.
Proof.
  intros self. subst self. intros Hnd Hspecs Hcls Hpre He Hpost.
  pose proof Hnd as Hnd'. rewrite Hspecs, fmap_app, fmap_cons in Hnd'.
  apply NoDup_app in Hnd' as (_ & Hpre_ne & [Hpost_ne _]%NoDup_cons).
  assert (ds ∈ specs (RecordOPXdata_init decls)) as Hds.
  { rewrite Hspecs. apply elem_of_app. right. by left. }
  split.
  - rewrite (collect_entries_frame _ _ _ _ _ _ _ _ _ _ Hpre); [done|].
    intros e He'. eapply complex_key_untouched; [exact Hnd|done..| |].
    + rewrite Hspecs. apply elem_of_app. by left.
    + intros Hn. apply (Hpre_ne (name e)); [by apply list_elem_of_fmap_2|].
      rewrite Hn. by left.
  - apply (collect_entries_frame _ _ _ _ _ _ _ _ _ _ Hpost).
    intros e He'. eapply complex_key_untouched; [exact Hnd|done..| |].
    + rewrite Hspecs. apply elem_of_app. right. by right.
    + intros Hn. apply Hpost_ne. rewrite <- Hn. by apply list_elem_of_fmap_2.
Qed.

End ComplexColumn.

(** What the branch for a complex column does by its own test: in a plan
    with distinct names, when [get_data_from_handle] returned an array for
    the I and for the Q stream, the dictionary that the turn yields maps the
    column's name to [idata + 1j*qdata], which for two arrays of one shape
    holds [i + j*q] element by element; when it returned [None], which it
    does for both streams at once and only if [available_points] equals the
    counter, the column is passed without an exception and its name is not a
    key of the dictionary. *)
Lemma complex_column_by_none_test `{Backend B} (decls : list DataSpec) handles
    (st0 st1 s1 s2 s3 : State B) pre ds post iname qname loc1 avail idata qdata :
  let self := RecordOPXdata_init decls in
  let cnt := counter (communicator st0) in
  NoDup (name <$> specs self) →
  specs self = pre ++ ds :: post →
  cls ds = ComplexOPXDataClass iname qname →
  collect_entries self handles cnt 0 pre (mk_Locals ∅ 0) st0 = Ok loc1 st1 →
  first_count handles (length pre) iname loc1 st1 = Ok avail s1 →
  get_data_from_handle handles cnt iname avail s1 = Ok idata s2 →
  get_data_from_handle handles cnt qname avail s2 = Ok qdata s3 →
  (∀ i q, idata = Some i → qdata = Some q →
     (∀ rd st', assemble self handles st0 = Ok rd st' →
        ∃ z, iq_combine i q = inr z ∧ rd !! name ds = Some (ComplexArray z))
     ∧ (shape i = shape q → wf_ndarray i → wf_ndarray q →
        ∃ z, iq_combine i q = inr z
             ∧ shape z = shape i
             ∧ data z = zip_with (λ x y, Cadd (of_real x) (Cmul Cj (of_real y)))
                          (data i) (data q)
             ∧ collect_entry self handles cnt (length pre) ds loc1 st1
               = Ok (mk_Locals (<[name ds := ComplexArray z]> (return_data loc1)) avail) s3))
  ∧ (idata = None ∨ qdata = None →
     collect_entry self handles cnt (length pre) ds loc1 st1
       = Ok (mk_Locals (return_data loc1) avail) s3
     ∧ ∀ rd st', assemble self handles st0 = Ok rd st' → rd !! name ds = None).
Proof.
  intros self cnt. subst self cnt. intros Hnd Hspecs Hcls Hpre Hf Hi Hq.
  (* what the turn of the column does *)
  assert (∀ loc2 s, collect_entry (RecordOPXdata_init decls) handles (counter (communicator st0)) (length pre) ds loc1 st1 = Ok loc2 s →
                    available_points loc2 = avail ∧ s = s3
                    ∧ complex_stored ds idata qdata (return_data loc1) (return_data loc2))
    as Hentry.
  { intros loc2 s He. apply collect_entry_Ok in He
      as [(iname' & qname' & s1' & idata' & s2' & qdata' & Hcls' & Hf' & Hi' & Hq' & Hst)
         |[([Hc _] & _)|(Hc & _)]].
    - rewrite Hcls in Hcls'. injection Hcls' as <- <-.
      rewrite Hf in Hf'. injection Hf' as -> <-.
      rewrite Hi in Hi'. injection Hi' as <- <-.
      rewrite Hq in Hq'. injection Hq' as <- <-. done.
    - unfold is_ComplexOPXData in Hc. by rewrite Hcls in Hc.
    - unfold is_ComplexOPXData in Hc. by rewrite Hcls in Hc. }
  (* what the turn yields *)
  assert (∀ rd st', assemble (RecordOPXdata_init decls) handles st0 = Ok rd st' →
                    ∃ loc2, complex_stored ds idata qdata (return_data loc1) (return_data loc2)
                            ∧ return_data loc1 !! name ds = None
                            ∧ rd !! name ds = return_data loc2 !! name ds) as Hyield.
  { intros rd st' (loc3 & st3 & Hrun & -> & _)%assemble_Ok.
    rewrite Hspecs in Hrun.
    apply collect_entries_app in Hrun as (loc1' & st1' & Hpre' & Hrun).
    rewrite Hpre in Hpre'. injection Hpre' as <- <-. cbn in Hrun.
    apply bind_Ok in Hrun as (loc2 & s & He & Hpost).
    destruct (Hentry _ _ He) as (_ & -> & Hst).
    destruct (complex_entry_final decls handles (counter (communicator st0)) st0 st1 s3 pre ds post iname qname
                loc1 loc2 loc3 st3 Hnd Hspecs Hcls Hpre He Hpost) as [Hnone Hsame].
    by exists loc2. }
  split.
  - intros i q -> ->. split.
    + intros rd st' (loc2 & (z & Hz & Hrd) & _ & Hlook)%Hyield.
      exists z. split; [done|]. rewrite Hlook, Hrd. apply lookup_insert_eq.
    + intros Hs Hwi Hwq. eexists. split; [by apply iq_combine_same_shape|].
      split; [done|]. split; [done|].
      unfold collect_entry. rewrite Hcls. unfold bind at 1. rewrite Hf.
      unfold bind at 1. rewrite Hi. unfold bind at 1. rewrite Hq.
      unfold bind at 1. rewrite iq_combine_same_shape; [|done..]. reflexivity.
  - intros Hnone.
    assert (∀ rd rd', complex_stored ds idata qdata rd rd' → rd' = rd) as Hst.
    { unfold complex_stored. intros rd rd'. destruct Hnone as [-> | ->]; [done|].
      by destruct idata. }
    split.
    + unfold collect_entry. rewrite Hcls. unfold bind at 1. rewrite Hf.
      unfold bind at 1. rewrite Hi. unfold bind at 1. rewrite Hq.
      destruct Hnone as [-> | ->]; [done|]. by destruct idata.
    + intros rd st' (loc2 & Hrd & Hn & Hlook)%Hyield.
      apply Hst in Hrd. by rewrite Hlook, Hrd.
Qed.

Lemma complex_column_by_none_test_witness :
  let self := RecordOPXdata_init [ComplexOPXData "z" None "I" "Q"] in
  ∃ i q,
    (∀ rd st', assemble self ["I"; "Q"] iq_start = Ok rd st' →
       ∃ z, iq_combine i q = inr z ∧ rd !! "z" = Some (ComplexArray z))
    ∧ (shape i = shape q → wf_ndarray i → wf_ndarray q →
       ∃ z, iq_combine i q = inr z
            ∧ shape z = shape i
            ∧ data z = zip_with (λ x y, Cadd (of_real x) (Cmul Cj (of_real y)))
                         (data i) (data q)
            ∧ ∃ s3, collect_entry self ["I"; "Q"] 0 0 (ComplexOPXData "z" None "I" "Q")
                      (mk_Locals ∅ 0) iq_start
                    = Ok (mk_Locals (<["z" := ComplexArray z]> ∅) 2) s3).
Proof.
  intros self.
  pose (s1 := state_after (first_count ["I"; "Q"] 0 "I" (mk_Locals ∅ 0)) iq_start).
  pose (s2 := state_after (get_data_from_handle ["I"; "Q"] 0 "I" 2) s1).
  pose (s3 := state_after (get_data_from_handle ["I"; "Q"] 0 "Q" 2) s2).
  pose (i := mk_ndarray [2] [1; 2]%Z).
  pose (q := mk_ndarray [2] [3; 4]%Z).
  exists i, q.
  destruct (complex_column_by_none_test [ComplexOPXData "z" None "I" "Q"] ["I"; "Q"]
              iq_start iq_start s1 s2 s3 [] (ComplexOPXData "z" None "I" "Q") []
              "I" "Q" (mk_Locals ∅ 0) 2 (Some i) (Some q)) as [Hboth _].
  - cbn. apply NoDup_singleton.
  - reflexivity.
  - reflexivity.
  - reflexivity.
  - vm_compute. reflexivity.
  - vm_compute. reflexivity.
  - vm_compute. reflexivity.
  - destruct (Hboth i q eq_refl eq_refl) as [Hyield Hshape]. split; [exact Hyield|].
    intros Hs Hwi Hwq. destruct (Hshape Hs Hwi Hwq) as (z & Hz & Hsh & Hd & He).
    exists z. repeat (split; [done|]). by exists s3.
Defined.

(** C3, where the code departs from it: a complex column whose Q stream
    returns no values while the I stream has new ones.  The fetch on Q gives
    an empty array, not [None], so the test on [None] does not pass the
    column over: with two I samples [idata + 1j*qdata] raises [ValueError],
    the shapes (2,) and (0,) do not broadcast, and the generator ends without
    a dictionary; with one I sample the squeezed I array has no axis, the sum
    broadcasts, and the dictionary holds the column with an empty array. *)
Theorem C3_lagging_q_not_omitted :
  let self := RecordOPXdata_init [ComplexOPXData "z" None "I" "Q"] in
  get_data_from_handle ["I"; "Q"] 0 "Q" 2 (lagging_q_start 2)
    = Ok (Some (mk_ndarray [0] []))
         (state_after (get_data_from_handle ["I"; "Q"] 0 "Q" 2) (lagging_q_start 2))
  ∧ (∃ st', collect self 1 10 1 (lagging_q_start 2) = ([], Raised ValueError, st'))
  ∧ yielded_items (collect self 1 10 1 (lagging_q_start 1))
    = [Some [("z", ComplexArray (mk_ndarray [0] []))]].
Proof.
  intros self. split; [vm_compute; reflexivity|]. split.
  - eexists. vm_compute. reflexivity.
  - vm_compute. reflexivity.
Qed.

(** *** C4: time points of timed columns *)

Section TimePoints.
Implicit Types (rd : gmap string pyvalue).

(** A one-dimensional array of length [n] gets the time points 1 to [n]. *)
Lemma timed_block_1d ds nm rd v n :
  is_TimedOPXData ds = true → rd !! name ds = Some v → pv_shape v = Some [n] →
  timed_block ds nm rd
  = inr (<[time_points_name nm := RealArray (mk_ndarray [n] (Z.of_nat <$> seq 1 n))]> rd).
Proof.
  intros Ht Hv Hs. unfold timed_block. rewrite Ht, Hv, Hs. cbn.
  unfold np_arange. by replace (n + 1 - 1) with n by lia.
Qed.

(** A two-dimensional array of shape ([r], [n]) with at least one row gets
    [r] rows of the time points 1 to [n]. *)
Lemma timed_block_2d ds nm rd v r n :
  is_TimedOPXData ds = true → rd !! name ds = Some v → pv_shape v = Some [r; n] →
  r ≠ 0 →
  timed_block ds nm rd
  = inr (<[time_points_name nm :=
             RealArray (mk_ndarray [r; n] (concat (replicate r (Z.of_nat <$> seq 1 n))))]> rd).
Proof.
  intros Ht Hv Hs Hr.
  assert (np_reshape_rows (np_tile (np_arange 1 (n + 1)) r) r
          = inr (mk_ndarray [r; n] (concat (replicate r (Z.of_nat <$> seq 1 n))))) as Hre.
  { unfold np_arange, np_tile, np_reshape_rows. cbn [data].
    replace (n + 1 - 1) with n by lia.
    assert (length (concat (replicate r (Z.of_nat <$> seq 1 n))) = n * r) as ->.
    { clear. induction r as [|r IH]; cbn; [lia|].
      rewrite length_app, IH, length_fmap, length_seq. lia. }
    destruct (decide (r = 0)) as [|_]; [done|].
    rewrite Nat.Div0.mod_mul, Nat.div_mul by done.
    by destruct (decide (0 = 0)). }
  unfold timed_block. rewrite Ht, Hv, Hs.
  change (shape_last [r; n]) with (inr n : exn + nat). cbv iota beta.
  destruct (decide (length [r; n] = 1)) as [Hl|_]; [cbn in Hl; lia|].
  destruct (decide (length [r; n] = 2)) as [_|Hl]; [|cbn in Hl; lia].
  change (hd 0 [r; n]) with r. by rewrite Hre.
Qed.

(** Three axes or more raise [NotImplementedError]. *)
Lemma timed_block_rank_3 ds nm rd v sh :
  is_TimedOPXData ds = true → rd !! name ds = Some v → pv_shape v = Some sh →
  3 ≤ length sh →
  timed_block ds nm rd = inl NotImplementedError.
Proof.
  intros Ht Hv Hs Hl. unfold timed_block. rewrite Ht, Hv, Hs.
  unfold shape_last. destruct (last sh) as [d|] eqn:El.
  - rewrite decide_False by lia. by rewrite decide_False by lia.
  - apply last_None in El. subst sh. cbn in Hl. lia.
Qed.

(** An array without axes raises [IndexError], at [shape[-1]]. *)
Lemma timed_block_0d ds nm rd v :
  is_TimedOPXData ds = true → rd !! name ds = Some v → pv_shape v = Some [] →
  timed_block ds nm rd = inl IndexError.
Proof. intros Ht Hv Hs. unfold timed_block. by rewrite Ht, Hv, Hs. Qed.

End TimePoints.

(** C4, where the code departs from it: a timed column whose fetch returns
    a single scalar sample.  [np.squeeze] leaves an array without axes, and
    the turn ends in [IndexError], not in [NotImplementedError]. *)
Theorem C4_single_sample_index_error :
  ∃ st', collect (RecordOPXdata_init [TimedOPXData "sig" None]) 1 10 1 single_sample_start
         = ([], Raised IndexError, st').
Proof. eexists. vm_compute. reflexivity. Qed.

(** *** C8: the counter over the turns of a run *)

Section CounterFacts.
Context {B : Type} `{!Backend B}.
Variable level : string → B → nat.
Hypothesis Hmono : monotone_counts level.
Implicit Types (st : State B) (loc : Locals).

Lemma respects_Ok (R : relation (State B)) {A} (m : M (State B) A) s a s' :
  respects R m → m s = Ok a s' → R s s'.
Proof. intros Hr Hm. specialize (Hr s). by rewrite Hm in Hr. Qed.

Lemma observe_handle_levels acc n m :
  level m acc.2 ≤ level m (observe_handle acc n).2.
Proof.
  destruct acc as [obs b]. cbn.
  pose proof (count_mono level Hmono m n b) as Hc.
  destruct (count_so_far n b) as [c b1]. cbn in Hc.
  pose proof (processing_mono level Hmono m b1) as Hp.
  destruct (is_processing b1) as [p b2]. cbn in *. lia.
Qed.

Lemma observe_levels handles b m : level m b ≤ level m (observe handles b).2.
Proof.
  unfold observe. change b with (([] : list Observation, b).2) at 1.
  generalize ([] : list Observation, b). induction handles as [|n handles IH];
    intros acc; cbn; [done|].
  etrans; [apply (observe_handle_levels acc n)|apply IH].
Qed.

Lemma poll_start_levels handles k b m : level m b ≤ level m (poll_start handles k b).
Proof.
  induction k as [|k IH]; cbn; [done|].
  etrans; [exact IH|apply observe_levels].
Qed.

Lemma wait_for_data_levels fuel batchsize st st' :
  _wait_for_data fuel batchsize st = Ok () st' → levels_rise level st st'.
Proof.
  intros (handles & _ & Hw)%wait_for_data_Ok.
  apply wait_loop_Ok in Hw as (k & _ & _ & _ & Hb & _). intros m. rewrite Hb.
  etrans; [apply (poll_start_levels handles k)|apply observe_levels].
Qed.

(** After the count of the handle [n] was read on the first turn of the [for]
    loop, the value lies between the levels before and after the call. *)
Lemma first_count_0_levels handles n loc st avail st' :
  first_count handles 0 n loc st = Ok avail st' →
  level n (backend st) ≤ avail ∧ avail ≤ level n (backend st')
  ∧ avail = (count_so_far n (backend st)).1.
Proof.
  intros [[_ Hc]|[? _]]%first_count_Ok; [|done].
  apply handle_count_Ok in Hc as (_ & -> & ->). cbn.
  split; [apply (count_above level Hmono)|]. split; [apply (count_below level Hmono)|done].
Qed.

(** One turn keeps the invariant, does not lower the counter, and fetches the
    range between the old and the new counter only. *)
Lemma turn_counter self fuel batchsize st st' :
  counter_inv level self st → turn self fuel batchsize st st' →
  counter_inv level self st'
  ∧ counter (communicator st) ≤ counter (communicator st')
  ∧ fetched_only (counter (communicator st)) (counter (communicator st')) st st'.
Proof.
  intros Hinv [_ (ys & Hit)].
  apply collect_iteration_Ok in Hit as (handles & st1 & rd & _ & Hw & Ha & _).
  pose proof (wait_for_data_levels _ _ _ _ Hw) as Hlev1.
  apply wait_for_data_frame in Hw as (_ & Hlog1 & _ & Hcnt1 & _).
  apply assemble_Ok in Ha as (loc & st2 & Hrun & _ & ->).
  pose proof (collect_entries_log _ _ _ _ _ _ _ _ _ Hrun) as Hlog.
  rewrite Hcnt1 in Hlog.
  assert (fetched_only (counter (communicator st)) (available_points loc) st
            (set_communicator (set_counter (available_points loc) (communicator st2)) st2))
    as Hfetched.
  { destruct Hlog as (new & Hnew & Hall). exists new. cbn. by rewrite Hnew, Hlog1. }
  unfold counter_inv in *. cbn.
  destruct (specs self) as [|first rest] eqn:Hspecs.
  - cbn in Hrun. injection Hrun as <- <-. cbn in *. split; [done|]. split; [lia|done].
  - cbn in Hrun. apply bind_Ok in Hrun as (loc1 & s1 & He & Hrest).
    pose proof (collect_entries_avail _ _ _ _ _ _ _ _ _ Hrest) as Hav.
    pose proof (respects_Ok _ _ _ _ _
                  (collect_entries_respects (levels_rise level)
                     (λ h n, handle_count_levels level h n Hmono)
                     (λ h c n u, get_data_levels level h c n u Hmono)
                     self handles _ 1 rest loc1) Hrest) as Hlev3.
    rewrite Hav in *. destruct Hinv as [Hplain Hskip].
    assert (skipped self first ∧ available_points loc1 = 0
            ∨ ¬ skipped self first
              ∧ level (backing_stream first) (backend st1) ≤ available_points loc1
              ∧ available_points loc1 ≤ level (backing_stream first) (backend s1))
      as [[Hs Hzero]|(Hs & Hlo & Hhi)].
    { apply collect_entry_Ok in He
        as [(iname & qname & sa & idata & sb & qdata & Hcls & Hf & Hi & Hq & _)
           |[(Hs & -> & _)|(Hc & Hu & _ & sa & d & Hf & Hd & _)]].
      - right. apply first_count_0_levels in Hf as (Hlo & Hhi & _).
        apply (respects_Ok _ _ _ _ _ (get_data_levels level _ _ _ _ Hmono)) in Hi, Hq.
        unfold backing_stream. rewrite Hcls. split.
        + intros [Hc _]. unfold is_ComplexOPXData in Hc. by rewrite Hcls in Hc.
        + split; [done|]. specialize (Hi iname). specialize (Hq iname). lia.
      - left. done.
      - right. apply first_count_0_levels in Hf as (Hlo & Hhi & _).
        apply (respects_Ok _ _ _ _ _ (get_data_levels level _ _ _ _ Hmono)) in Hd.
        rewrite backing_stream_plain by done. split; [by intros [_ ?]|].
        split; [done|]. specialize (Hd (name first)). lia. }
    + rewrite Hzero, (Hskip Hs). split; [|split; [lia|by rewrite Hzero, (Hskip Hs) in Hfetched]].
      split; [by intros []|done].
    + specialize (Hplain Hs). specialize (Hlev1 (backing_stream first)).
      specialize (Hlev3 (backing_stream first)).
      split; [|split; [lia|done]].
      split; [intros _; lia|by intros ?].
Qed.

End CounterFacts.

(** C8: on a backend whose counts never go down, in a run that started with
    the counter at zero, a turn does not lower the counter; every fetch of
    the turn has the range from the counter before the turn, the upper bound
    of the turn before, to the counter after it; and every fetch of an
    earlier turn ended at or below the counter before the turn, so that no
    index is fetched in two turns. *)
Theorem C8_counter_monotone `{Backend B} (level : string → B → nat)
    (self : RecordOPXdata) (fuel : nat) (batchsize : Z) (st0 st st' : State B) :
  monotone_counts level →
  counter (communicator st0) = 0 →
  rtc (turn self fuel batchsize) st0 st →
  turn self fuel batchsize st st' →
  counter (communicator st) ≤ counter (communicator st')
  ∧ (∃ new, fetch_log st' = new ++ fetch_log st
            ∧ Forall (λ f, fc_lo f = counter (communicator st)
                           ∧ fc_hi f = counter (communicator st')) new)
  ∧ (∃ old, fetch_log st = old ++ fetch_log st0
            ∧ Forall (λ f, fc_hi f ≤ counter (communicator st)) old).
Proof.
  intros Hmono Hzero Hrun Hturn.
  assert (counter_inv level self st
          ∧ ∃ old, fetch_log st = old ++ fetch_log st0
                   ∧ Forall (λ f, fc_hi f ≤ counter (communicator st)) old)
    as [Hinv Hold].
  { clear Hturn st'. revert st Hrun.
    apply (rtc_ind_r (λ st, counter_inv level self st
                            ∧ ∃ old, fetch_log st = old ++ fetch_log st0
                                     ∧ Forall (λ f, fc_hi f ≤ counter (communicator st)) old)).
    - split.
      + unfold counter_inv. rewrite Hzero. destruct (specs self); [done|].
        split; [intros _; lia|done].
      + by exists [].
    - intros y z Hrun Hstep [Hinv (old & Hold & Hall)].
      destruct (turn_counter level Hmono self fuel batchsize y z Hinv Hstep)
        as (Hinv' & Hle & new & Hnew & Hall').
      split; [done|]. exists (new ++ old). split.
      + by rewrite Hnew, Hold, app_assoc.
      + apply Forall_app. split.
        * eapply Forall_impl; [exact Hall'|]. intros f [_ ->]. done.
        * eapply Forall_impl; [exact Hall|]. intros f Hf. cbn in *. lia. }
  destruct (turn_counter level Hmono self fuel batchsize st st' Hinv Hturn)
    as (_ & Hle & Hnew).
  done.
Qed.

Lemma C8_counter_monotone_witness :
  let self := RecordOPXdata_init [indep "x"] in
  let st' := after_turn self 10 20 ramp_start in
  counter (communicator ramp_start) ≤ counter (communicator st')
  ∧ (∃ new, fetch_log st' = new ++ fetch_log ramp_start
            ∧ Forall (λ f, fc_lo f = counter (communicator ramp_start)
                           ∧ fc_hi f = counter (communicator st')) new)
  ∧ (∃ old, fetch_log ramp_start = old ++ fetch_log ramp_start
            ∧ Forall (λ f, fc_hi f ≤ counter (communicator ramp_start)) old).
Proof.
  intros self st'.
  apply (C8_counter_monotone (λ _ t, 10 * t) self 10 20 ramp_start ramp_start st').
  - split; cbn; intros; lia.
  - reflexivity.
  - apply rtc_refl.
  - split; [reflexivity|]. eexists. vm_compute. reflexivity.
Defined.

(** ** The example scenarios of the specification *)

(** Scenario 1: the first turn waits for the count 120 and fetches [[0, 120)],
    the second finds the job stopped and fetches [[120, 200)]; then the
    generator returns, and [cleanup] has run once. *)
Example scenario_scalar_run :
  ∃ ys st', collect (RecordOPXdata_init [indep "x"]) 5 10 100 scalar_start
            = (ys, StopIteration, st')
            ∧ length ys = 2
            ∧ fetch_log st' = [mk_FetchCall "x" 120 200; mk_FetchCall "x" 0 120]
            ∧ cleanup_calls st' = 1.
Proof. eexists _, _. split; [vm_compute; reflexivity|]. by vm_compute. Qed.

(** Scenario 2: a batch of shape (1, 10) is squeezed to ten points and gets
    the time points 1 to 10; a batch of shape (3, 10) gets three rows of
    them. *)
Example scenario_timed_run :
  let tp := Z.of_nat <$> seq 1 10 in
  yielded_items (collect (RecordOPXdata_init [TimedOPXData "sig" None]) 5 10 1 trace_start)
  = [Some [("sig_time_points", RealArray (mk_ndarray [10] tp));
           ("sig", RealArray (mk_ndarray [10] (replicate 10 0%Z)))];
     Some [("sig_time_points", RealArray (mk_ndarray [3; 10] (tp ++ tp ++ tp)));
           ("sig", RealArray (mk_ndarray [3; 10] (replicate 30 0%Z)))]].
Proof. vm_compute. reflexivity. Qed.

(** Scenario 3: I = [1, 2] and Q = [3, 4] give z = [1+3j, 2+4j]. *)
Example scenario_complex_run :
  yielded_items (collect (RecordOPXdata_init [ComplexOPXData "z" None "I" "Q"]) 1 10 1
                   iq_start)
  = [Some [("z", ComplexArray (mk_ndarray [2] [mk_complex 1 3; mk_complex 2 4]))]].
Proof. vm_compute. reflexivity. Qed.

(** A session supplied from outside stays open through the run and through
    a further call of [cleanup]. *)
Example external_session_run :
  ∃ ys st' st'', collect (RecordOPXdata_init [indep "x"]) 5 10 100 external_start
                 = (ys, StopIteration, st')
                 ∧ globals st' = globals external_start
                 ∧ cleanup st' = Ok () st''
                 ∧ globals st'' = globals external_start.
Proof.
  eexists _, _, _. split; [vm_compute; reflexivity|].
  split; [reflexivity|]. split; [vm_compute; reflexivity|reflexivity].
Qed.

(** * Further properties of the module *)

(** ** The session: [setup], [cleanup] and [QuantumMachineContext] *)

(** X1: unless the globals hold a manager without a machine, [setup] returns;
    it marks the run as self-managed exactly when both globals were unset,
    leaves the globals as they are otherwise, opens a machine and keeps the
    other machines open when it manages the session itself, and in every case
    starts the run with [active] true, the counter at zero and the handles of
    the job. *)
Theorem X1_setup_ownership `{Backend B} (handles : option (list string)) (st : State B) :
  qmachine_mgr (globals st) = None ∨ qmachine (globals st) ≠ None →
  ∃ st', setup handles st = Ok () st'
    ∧ (self_managed (communicator st') = true
       ↔ qmachine_mgr (globals st) = None ∧ qmachine (globals st) = None)
    ∧ result_handles (communicator st') = handles
    ∧ active (communicator st') = true
    ∧ counter (communicator st') = 0
    ∧ qmachine (globals st') ≠ None
    ∧ (self_managed (communicator st') = false → globals st' = globals st)
    ∧ (self_managed (communicator st') = true →
       session_open (globals st')
       ∧ (∃ q, qmachine (globals st') = Some q ∧ qm_id q ∈ open_machines (globals st'))
       ∧ ∀ i, i ∈ open_machines (globals st) → i ∈ open_machines (globals st'))
    ∧ backend st' = backend st ∧ fetch_log st' = fetch_log st
    ∧ cleanup_calls st' = cleanup_calls st.
Proof.
  intros Hg. unfold setup.
  destruct (qmachine_mgr (globals st)) as [m|] eqn:Em;
    destruct (qmachine (globals st)) as [q|] eqn:Eq; cbn; rewrite ?Eq.
  - eexists. split; [done|]. cbn. rewrite ?Eq.
    repeat split; try done; try (intros [? ?]; done).
  - destruct Hg as [?|?]; done.
  - eexists. split; [done|]. cbn. rewrite ?Eq.
    repeat split; try done; try (intros [? ?]; done).
  - eexists. split; [done|]. cbn. repeat split; try done.
    + eexists. split; [done|]. apply list_elem_of_here.
    + intros i Hi. by apply list_elem_of_further.
Qed.

Lemma X1_setup_ownership_witness :
  let st := initial_state scenario_scalar in
  (qmachine_mgr (globals st) = None ∨ qmachine (globals st) ≠ None)
  ∧ ∃ st', setup (Some ["x"]) st = Ok () st'
    ∧ (self_managed (communicator st') = true
       ↔ qmachine_mgr (globals st) = None ∧ qmachine (globals st) = None)
    ∧ result_handles (communicator st') = Some ["x"]
    ∧ active (communicator st') = true
    ∧ counter (communicator st') = 0
    ∧ qmachine (globals st') ≠ None
    ∧ (self_managed (communicator st') = false → globals st' = globals st)
    ∧ (self_managed (communicator st') = true →
       session_open (globals st')
       ∧ (∃ q, qmachine (globals st') = Some q ∧ qm_id q ∈ open_machines (globals st'))
       ∧ ∀ i, i ∈ open_machines (globals st) → i ∈ open_machines (globals st'))
    ∧ backend st' = backend st ∧ fetch_log st' = fetch_log st
    ∧ cleanup_calls st' = cleanup_calls st.
Proof.
  intros st.
  assert (qmachine_mgr (globals st) = None ∨ qmachine (globals st) ≠ None) as Hg
    by (left; reflexivity).
  split; [exact Hg|]. exact (X1_setup_ownership (Some ["x"]) st Hg).
Defined.

(** X2: when the globals hold a machine but no manager, [setup] returns and
    does not mark the run as self-managed; the [cleanup] of that run then
    raises [AttributeError], on the manager that is not there, and closes
    nothing. *)
Theorem X2_setup_without_manager `{Backend B} (handles : option (list string))
    (st : State B) q :
  qmachine_mgr (globals st) = None → qmachine (globals st) = Some q →
  ∃ st', setup handles st = Ok () st'
    ∧ self_managed (communicator st') = false
    ∧ globals st' = globals st
    ∧ ∃ st'', cleanup st' = Raise AttributeError st''
              ∧ globals st'' = globals st.
Proof.
  intros Hm Hq. unfold setup. rewrite Hm, Hq. cbn. rewrite ?Hq.
  eexists. split; [done|]. split; [done|]. split; [done|].
  unfold cleanup. cbn. rewrite Hm. eexists. split; done.
Qed.

Lemma X2_setup_without_manager_witness :
  ∃ st', setup (Some ["x"]) unmanaged_start = Ok () st'
    ∧ self_managed (communicator st') = false
    ∧ globals st' = globals unmanaged_start
    ∧ ∃ st'', cleanup st' = Raise AttributeError st''
              ∧ globals st'' = globals unmanaged_start.
Proof.
  apply (X2_setup_without_manager (Some ["x"]) unmanaged_start (mk_QuantumMachine 7));
    reflexivity.
Defined.

(** X3: when the globals hold a manager but no machine, [setup] opens
    nothing and raises [AttributeError] where it asks the machine to execute;
    the globals, the counter, [active] and the handles stay as they were, and
    the run is marked as not self-managed. *)
Theorem X3_setup_without_machine `{Backend B} (handles : option (list string))
    (st : State B) m :
  qmachine_mgr (globals st) = Some m → qmachine (globals st) = None →
  ∃ st', setup handles st = Raise AttributeError st'
    ∧ globals st' = globals st
    ∧ self_managed (communicator st') = false
    ∧ result_handles (communicator st') = result_handles (communicator st)
    ∧ active (communicator st') = active (communicator st)
    ∧ counter (communicator st') = counter (communicator st).
Proof.
  intros Hm Hq. unfold setup. rewrite Hm, Hq. cbn. rewrite ?Hq.
  eexists. split; [done|]. by cbn.
Qed.

Lemma X3_setup_without_machine_witness :
  ∃ st', setup (Some ["x"]) machineless_start = Raise AttributeError st'
    ∧ globals st' = globals machineless_start
    ∧ self_managed (communicator st') = false
    ∧ result_handles (communicator st') = result_handles (communicator machineless_start)
    ∧ active (communicator st') = active (communicator machineless_start)
    ∧ counter (communicator st') = counter (communicator machineless_start).
Proof.
  apply (X3_setup_without_machine (Some ["x"]) machineless_start ()); reflexivity.
Defined.

(** X4: a run that opened its own session gives it back: after [setup] from
    unset globals, [cleanup] returns, closes the machine that [setup] opened,
    and unsets both globals, so that the next [setup] manages a session of its
    own again. *)
Theorem X4_own_session_round_trip `{Backend B} (handles handles' : option (list string))
    (st : State B) :
  qmachine_mgr (globals st) = None → qmachine (globals st) = None →
  ∃ st1 st2 st3 q,
    setup handles st = Ok () st1
    ∧ qmachine (globals st1) = Some q
    ∧ cleanup st1 = Ok () st2
    ∧ qmachine_mgr (globals st2) = None ∧ qmachine (globals st2) = None
    ∧ (qm_id q ∉ open_machines (globals st2))
    ∧ setup handles' st2 = Ok () st3
    ∧ self_managed (communicator st3) = true.
Proof.
  intros Hm Hq. unfold setup at 1. rewrite Hm, Hq. cbn.
  eexists _, _, _, _. split; [done|]. cbn. split; [done|].
  split; [done|]. cbn. split; [done|]. split; [done|]. split.
  - destruct (decide _) as [Hne|_]; [by destruct Hne|].
    rewrite list_elem_of_filter. tauto.
  - done.
Qed.

Lemma X4_own_session_round_trip_witness :
  let st := initial_state scenario_scalar in
  ∃ st1 st2 st3 q,
    setup (Some ["x"]) st = Ok () st1
    ∧ qmachine (globals st1) = Some q
    ∧ cleanup st1 = Ok () st2
    ∧ qmachine_mgr (globals st2) = None ∧ qmachine (globals st2) = None
    ∧ (qm_id q ∉ open_machines (globals st2))
    ∧ setup (Some ["y"]) st2 = Ok () st3
    ∧ self_managed (communicator st3) = true.
Proof.
  intros st.
  apply (X4_own_session_round_trip (Some ["x"]) (Some ["y"]) st); reflexivity.
Defined.

(** X5: a run inside a [QuantumMachineContext] borrows the session: after
    [__enter__], [setup] does not mark the run as self-managed and [cleanup]
    leaves the globals as [__enter__] set them; [__exit__] then closes the
    machine and unsets both globals, and a second [__exit__] changes nothing
    more. *)
Theorem X5_context_session `{Backend B} (handles : option (list string)) (st : State B) :
  let g1 := qmc_enter (globals st) in
  session_open g1
  ∧ (∃ st1 st2,
       setup handles (set_globals g1 st) = Ok () st1
       ∧ self_managed (communicator st1) = false
       ∧ globals st1 = g1
       ∧ cleanup st1 = Ok () st2
       ∧ globals st2 = g1)
  ∧ qmachine_mgr (qmc_exit g1) = None ∧ qmachine (qmc_exit g1) = None
  ∧ (∀ q, qmachine g1 = Some q → qm_id q ∉ open_machines (qmc_exit g1))
  ∧ qmc_exit (qmc_exit g1) = qmc_exit g1.
Proof.
  intros g1. unfold g1, qmc_enter. cbn. split; [split; done|]. split.
  - eexists _, _. unfold setup. cbn. split; [done|]. cbn. split; [done|].
    split; [done|]. split; done.
  - unfold qmc_exit. cbn. split; [done|]. split; [done|]. split; [|done].
    intros q [= <-]. destruct (decide _) as [Hne|_]; [by destruct Hne|].
    rewrite list_elem_of_filter. tauto.
Qed.

(** ** The plan: [TimedOPXData.__post_init__] and [__init__] *)

(** X6: the first dependency that [__post_init__] gives a timed specification
    is the name of the synthetic column that [__init__] adds for it: the
    dependencies that were declared follow that name, all of them and in
    their order (none when [None] or an empty list was given), and the name
    is in [user_data] and names a plain column of the plan, which [collect]
    skips. *)
Theorem X6_timed_dependency (decls : list DataSpec) (n : string)
    (deps : option (list string)) :
  TimedOPXData n deps ∈ decls →
  let self := RecordOPXdata_init decls in
  depends_on (TimedOPXData n deps) = Some (time_points_name n :: default [] deps)
  ∧ indep (time_points_name n) ∈ specs self
  ∧ time_points_name n ∈ user_data self
  ∧ skipped self (indep (time_points_name n)).
Proof.
  intros Hd self.
  assert (TimedOPXData n deps ∈ specs self) as Hin.
  { unfold self. rewrite init_specs, list_elem_of_In, in_flat_map.
    exists (TimedOPXData n deps). split; [by apply list_elem_of_In|]. by left. }
  destruct (timed_in_specs decls _ Hin eq_refl) as (pre & post & Heq & Hu).
  cbn in Hu. fold self in Hu.
  split.
  - unfold TimedOPXData. cbn. destruct deps as [l|]; [|done]. cbn.
    destruct (decide (length l = 0)) as [Hl|Hl]; [|done].
    apply nil_length_inv in Hl. by subst l.
  - split; [by apply user_data_in_specs|]. split; [done|]. by split.
Qed.

Lemma X6_timed_dependency_witness :
  let self := RecordOPXdata_init [TimedOPXData "sig" (Some ["t"; "u"])] in
  depends_on (TimedOPXData "sig" (Some ["t"; "u"]))
  = Some (time_points_name "sig" :: default [] (Some ["t"; "u"]))
  ∧ indep (time_points_name "sig") ∈ specs self
  ∧ time_points_name "sig" ∈ user_data self
  ∧ skipped self (indep (time_points_name "sig")).
Proof.
  apply (X6_timed_dependency [TimedOPXData "sig" (Some ["t"; "u"])] "sig"
           (Some ["t"; "u"])).
  apply list_elem_of_here.
Defined.

(** X7: [__init__] drops and reorders nothing: the declarations are a
    sublist of the plan, the plan is longer than the declarations by the
    number of names in [user_data], these names are the time-point names of
    the timed declarations in their order, and without a timed declaration
    the plan is the declarations themselves. *)
Theorem X7_init_plan_shape (decls : list DataSpec) :
  let self := RecordOPXdata_init decls in
  (make_data_spec <$> decls) `sublist_of` specs self
  ∧ length (specs self) = length decls + length (user_data self)
  ∧ user_data self
    = (λ d, time_points_name (name d))
        <$> filter (λ d, is_TimedOPXData d = true) (make_data_spec <$> decls)
  ∧ (Forall (λ d, is_TimedOPXData (make_data_spec d) = false) decls →
     specs self = make_data_spec <$> decls ∧ user_data self = []).
Proof.
  intros self. unfold self. rewrite init_specs, init_user_data. clear self.
  induction decls as [|d decls (IHs & IHl & IHu & IHn)].
  - repeat split; done.
  - rewrite fmap_cons, filter_cons.
    change (flat_map expand (d :: decls)) with (expand d ++ flat_map expand decls).
    change (flat_map synthetic_names (d :: decls))
      with (synthetic_names d ++ flat_map synthetic_names decls).
    set (E := flat_map expand decls) in *.
    set (U := flat_map synthetic_names decls) in *.
    unfold expand, synthetic_names.
    destruct (is_TimedOPXData (make_data_spec d)) eqn:Et.
    + rewrite decide_True by done. rewrite fmap_cons, <- IHu.
      split; [|split; [|split]].
      * apply sublist_skip. by apply sublist_cons.
      * cbn. rewrite IHl. lia.
      * done.
      * intros Hall. apply Forall_cons_1 in Hall as [Hd _]. congruence.
    + rewrite decide_False by done. rewrite <- IHu.
      split; [|split; [|split]].
      * by apply sublist_skip.
      * cbn. by rewrite IHl.
      * done.
      * intros Hall. apply Forall_cons_1 in Hall as [_ Hall].
        destruct (IHn Hall) as [HE HU]. cbn. by rewrite HE, HU.
Qed.

(** ** [_wait_for_data] beyond the claims *)

Section WaitMore.
Context {B : Type} `{!Backend B}.
Implicit Types st : State B.

Lemma wait_loop_no_raise fuel cnt batchsize handles st e s :
  wait_loop fuel cnt batchsize handles st ≠ Raise e s.
Proof.
  revert st. induction fuel as [|fuel IH]; intros st; cbn; [done|].
  destruct (poll cnt batchsize handles (backend st)) as [[statuses processing] b].
  destruct (bool_decide (false ∉ statuses)); [done|]. apply IH.
Qed.

(** More fuel does not change what the loop returns. *)
Lemma wait_loop_fuel fuel fuel' cnt batchsize handles st st' :
  wait_loop fuel cnt batchsize handles st = Ok () st' → fuel ≤ fuel' →
  wait_loop fuel' cnt batchsize handles st = Ok () st'.
Proof.
  revert fuel' st. induction fuel as [|fuel IH]; intros fuel' st; cbn; [done|].
  intros Hw Hle. destruct fuel' as [|fuel']; [lia|]. cbn.
  destruct (poll cnt batchsize handles (backend st)) as [[statuses processing] b].
  destruct (bool_decide (false ∉ statuses)); [done|]. apply (IH _ _ Hw). lia.
Qed.

Lemma collect_loop_S self turns fuel batchsize st :
  collect_loop self (S turns) fuel batchsize st
  = if active (communicator st) then
      match collect_iteration self fuel batchsize st with
      | (ys, Ok _ st') =>
          let '(ys', e, st'') := collect_loop self turns fuel batchsize st' in
          (ys ++ ys', e, st'')
      | (ys, Raise e st') => (ys, inl (Some e), st')
      | (ys, Hang) => (ys, inr Hung, st)
      end
    else ([], inl None, st).
Proof. done. Qed.

End WaitMore.

(** X8: with an empty collection of result handles, [_wait_for_data] returns
    on its first poll without calling the backend and switches [active] off;
    a run that was active therefore makes exactly one turn, whose dictionary
    is the only value yielded before the loop is left. *)
Theorem X8_wait_no_handles `{Backend B} (fuel : nat) (batchsize : Z) (st : State B) :
  result_handles (communicator st) = Some [] →
  active (communicator st) = true →
  ∃ st', _wait_for_data (S fuel) batchsize st = Ok () st'
    ∧ active (communicator st') = false
    ∧ backend st' = backend st
    ∧ counter (communicator st') = counter (communicator st)
    ∧ ∀ self rd st'' turns,
        assemble self [] st' = Ok rd st'' →
        collect_loop self (S (S turns)) (S fuel) batchsize st
        = ([Some rd], inl None, st'').
Proof.
  intros Hh Hact.
  exists (set_communicator (set_active false (communicator st))
            (set_backend (backend st) st)).
  assert (_wait_for_data (S fuel) batchsize st
          = Ok () (set_communicator (set_active false (communicator st))
                     (set_backend (backend st) st))) as Hw.
  { unfold _wait_for_data. by rewrite Hh. }
  split; [done|]. split; [done|]. split; [done|]. split; [done|].
  intros self rd st'' turns Ha.
  rewrite collect_loop_S, Hact. unfold collect_iteration. rewrite Hh, Hw, Ha.
  rewrite collect_loop_S.
  apply assemble_frame in Ha as (_ & _ & Ha & _). by rewrite Ha.
Qed.

Lemma X8_wait_no_handles_witness :
  let st := after_setup (Some []) (initial_state idle_job) in
  ∃ st', _wait_for_data 1 100 st = Ok () st'
    ∧ active (communicator st') = false
    ∧ backend st' = backend st
    ∧ counter (communicator st') = counter (communicator st)
    ∧ ∀ self rd st'' turns,
        assemble self [] st' = Ok rd st'' →
        collect_loop self (S (S turns)) 1 100 st = ([Some rd], inl None, st'').
Proof.
  intros st. apply (X8_wait_no_handles 0 100 st); reflexivity.
Defined.

(** X9: when the communicator holds no result handles at all, [collect]
    yields [None] once, then [_wait_for_data] raises [TypeError] on iterating
    over them; the exception leaves the generator after one [cleanup], and
    the counter and the log of fetches are as before. *)
Theorem X9_collect_without_handles `{Backend B} (self : RecordOPXdata) (turns fuel : nat)
    (batchsize : Z) (st : State B) :
  result_handles (communicator st) = None →
  active (communicator st) = true →
  session_open (globals st) →
  ∃ st', collect self (S turns) fuel batchsize st = ([None], Raised TypeError, st')
         ∧ cleanup_calls st' = S (cleanup_calls st)
         ∧ communicator st' = communicator st
         ∧ fetch_log st' = fetch_log st
         ∧ backend st' = backend st.
Proof.
  intros Hh Hact Hopen.
  destruct (cleanup_open st Hopen) as (st' & Hcl & Hcomm & Hb & Hl & Hn & _).
  exists st'. split; [|done].
  unfold collect. cbn. rewrite Hact. unfold collect_iteration, _wait_for_data.
  rewrite Hh. by rewrite Hcl.
Qed.

Lemma X9_collect_without_handles_witness :
  let st := after_setup None (initial_state idle_job) in
  ∃ st', collect (RecordOPXdata_init [indep "x"]) 1 10 100 st
         = ([None], Raised TypeError, st')
         ∧ cleanup_calls st' = S (cleanup_calls st)
         ∧ communicator st' = communicator st
         ∧ fetch_log st' = fetch_log st
         ∧ backend st' = backend st.
Proof.
  intros st. apply (X9_collect_without_handles _ 0 10 100 st).
  - reflexivity.
  - reflexivity.
  - split; discriminate.
Defined.

(** X10: [_wait_for_data] returns as soon as the fuel reaches a poll that
    satisfies every handle, and what it returns does not depend on the fuel:
    any larger bound on the number of polls gives the same final state. *)
Theorem X10_wait_returns `{Backend B} (fuel fuel' : nat) (batchsize : Z) (st : State B)
    handles k :
  result_handles (communicator st) = Some handles →
  k < fuel → fuel ≤ fuel' →
  Forall (satisfied (counter (communicator st)) batchsize)
    (observe handles (poll_start handles k (backend st))).1 →
  ∃ st', _wait_for_data fuel batchsize st = Ok () st'
         ∧ _wait_for_data fuel' batchsize st = Ok () st'.
Proof.
  intros Hh Hk Hle Hsat. unfold _wait_for_data. rewrite Hh.
  destruct (wait_loop_returns fuel _ batchsize handles st k Hk Hsat) as [st' Hw].
  exists st'. split; [done|]. by eapply wait_loop_fuel.
Qed.

Lemma X10_wait_returns_witness :
  ∃ st', _wait_for_data 3 100 scalar_start = Ok () st'
         ∧ _wait_for_data 10 100 scalar_start = Ok () st'.
Proof.
  apply (X10_wait_returns 3 10 100 scalar_start ["x"] 2).
  - reflexivity.
  - lia.
  - lia.
  - assert ((observe ["x"] (poll_start ["x"] 2 (backend scalar_start))).1
            = [mk_Observation 120 true]) as -> by (vm_compute; reflexivity).
    apply Forall_singleton. right. cbn. lia.
Defined.

(** X11: [_wait_for_data] never fetches and never moves the counter: however
    it ends, the session globals, the log of fetches, the count of
    [cleanup] calls, the counter, the ownership flag and the handles are as
    before, and [active] is never switched on by it. *)
Theorem X11_wait_frame `{Backend B} (fuel : nat) (batchsize : Z) (st : State B) :
  match _wait_for_data fuel batchsize st with
  | Ok _ st' | Raise _ st' =>
      globals st' = globals st
      ∧ fetch_log st' = fetch_log st
      ∧ cleanup_calls st' = cleanup_calls st
      ∧ counter (communicator st') = counter (communicator st)
      ∧ self_managed (communicator st') = self_managed (communicator st)
      ∧ result_handles (communicator st') = result_handles (communicator st)
      ∧ (active (communicator st') = true → active (communicator st) = true)
  | Hang => True
  end.
Proof.
  destruct (_wait_for_data fuel batchsize st) as [[] st'|e st'|] eqn:Hw; [| |done].
  - pose proof (wait_for_data_frame _ _ _ _ Hw) as (Hg & Hl & Hc & Hcnt & Hm & Hh).
    repeat (split; [done|]).
    apply wait_for_data_Ok in Hw as (handles & _ & Hw).
    apply wait_loop_Ok in Hw as (k & _ & _ & _ & _ & _ & _ & _ & Hcomm).
    rewrite Hcomm. by destruct (bool_decide _).
  - unfold _wait_for_data in Hw.
    destruct (result_handles (communicator st)) as [handles|] eqn:Eh.
    + by apply wait_loop_no_raise in Hw.
    + injection Hw as <- <-. repeat split; done.
Qed.

(** ** The generator as a whole *)

Section GeneratorFacts.
Context {B : Type} `{!Backend B}.
Implicit Types (st : State B) (loc : Locals).

Lemma bind_Hang {S A C} (m : M S A) (k : A → M S C) s :
  bind m k s = Hang → m s = Hang ∨ ∃ a s', m s = Ok a s' ∧ k a s' = Hang.
Proof. unfold bind. destruct (m s) as [a s'| |]; [eauto|done|by left]. Qed.

Lemma handle_count_no_hang handles n st : handle_count handles n st ≠ Hang.
Proof.
  unfold handle_count. destruct (decide (n ∈ handles)); [|done].
  by destruct (count_so_far n (backend st)).
Qed.

Lemma get_data_no_hang handles cnt n up_to st :
  get_data_from_handle handles cnt n up_to st ≠ Hang.
Proof.
  unfold get_data_from_handle. destruct (decide (up_to = cnt)); [done|].
  destruct (decide (n ∈ handles)); [|done].
  by destruct (fetch n cnt up_to (wait_for_values n up_to (backend st))).
Qed.

Lemma first_count_no_hang handles i n loc st : first_count handles i n loc st ≠ Hang.
Proof.
  unfold first_count. destruct (decide (i = 0)); [apply handle_count_no_hang|done].
Qed.

Lemma lift_exn_no_hang {A} (r : exn + A) st : lift_exn r st ≠ Hang.
Proof. by destruct r. Qed.

(** The [for] loop always comes to an end. *)
Lemma collect_entry_no_hang self handles cnt i ds loc st :
  collect_entry self handles cnt i ds loc st ≠ Hang.
Proof.
  unfold collect_entry. intros Hh. destruct (cls ds) as [| |iname qname].
  1,2: destruct (decide (name ds ∈ user_data self)); [done|];
       destruct (decide (name ds ∉ handles)); [done|];
       apply bind_Hang in Hh as [Hh|(avail & s1 & _ & Hh)];
         [by apply first_count_no_hang in Hh|];
       apply bind_Hang in Hh as [Hh|(d & s2 & _ & Hh)];
         [by apply get_data_no_hang in Hh|];
       apply bind_Hang in Hh as [Hh|(rd' & s3 & _ & Hh)];
         [by apply lift_exn_no_hang in Hh|done].
  apply bind_Hang in Hh as [Hh|(avail & s1 & _ & Hh)];
    [by apply first_count_no_hang in Hh|].
  apply bind_Hang in Hh as [Hh|(idata & s2 & _ & Hh)];
    [by apply get_data_no_hang in Hh|].
  apply bind_Hang in Hh as [Hh|(qdata & s3 & _ & Hh)];
    [by apply get_data_no_hang in Hh|].
  destruct idata as [idata|], qdata as [qdata|]; try done.
  apply bind_Hang in Hh as [Hh|(z & s4 & _ & Hh)]; [by apply lift_exn_no_hang in Hh|done].
Qed.

Lemma collect_entries_no_hang self handles cnt i l loc st :
  collect_entries self handles cnt i l loc st ≠ Hang.
Proof.
  revert i loc st. induction l as [|ds l IH]; intros i loc st; cbn; [done|].
  intros [Hh|(loc' & s' & _ & Hh)]%bind_Hang.
  - by apply collect_entry_no_hang in Hh.
  - by apply IH in Hh.
Qed.

(** How the assembler can end, and what it leaves alone in each case. *)
Lemma assemble_outcome self handles st :
  match assemble self handles st with
  | Ok _ st' =>
      globals st' = globals st ∧ cleanup_calls st' = cleanup_calls st
      ∧ active (communicator st') = active (communicator st)
      ∧ self_managed (communicator st') = self_managed (communicator st)
      ∧ result_handles (communicator st') = result_handles (communicator st)
  | Raise _ st' =>
      communicator st' = communicator st ∧ globals st' = globals st
      ∧ cleanup_calls st' = cleanup_calls st
  | Hang => False
  end.
Proof.
  destruct (assemble self handles st) as [rd st'|e st'|] eqn:Ha.
  - by apply assemble_frame in Ha.
  - unfold assemble, bind in Ha.
    pose proof (collect_entries_respects same_run handle_count_same_run get_data_same_run
                  self handles (counter (communicator st)) 0 (specs self)
                  (mk_Locals ∅ 0) st) as Hr.
    destruct (collect_entries _ _ _ _ _ _ st) as [loc s1|e1 s1|]; [done| |done].
    injection Ha as <- <-. exact Hr.
  - unfold assemble, bind in Ha.
    pose proof (collect_entries_no_hang self handles (counter (communicator st)) 0
                  (specs self) (mk_Locals ∅ 0) st) as Hn.
    by destruct (collect_entries _ _ _ _ _ _ st).
Qed.

(** However [_wait_for_data] ends, it leaves the session, the log, the
    counter and the handles alone, and does not switch [active] on. *)
Lemma wait_outcome fuel batchsize st :
  match _wait_for_data fuel batchsize st with
  | Ok _ st' | Raise _ st' =>
      globals st' = globals st
      ∧ fetch_log st' = fetch_log st
      ∧ cleanup_calls st' = cleanup_calls st
      ∧ counter (communicator st') = counter (communicator st)
      ∧ self_managed (communicator st') = self_managed (communicator st)
      ∧ result_handles (communicator st') = result_handles (communicator st)
      ∧ (active (communicator st') = true → active (communicator st) = true)
  | Hang => True
  end.
Proof.
  destruct (_wait_for_data fuel batchsize st) as [[] st'|e st'|] eqn:Hw; [| |done].
  - pose proof (wait_for_data_frame _ _ _ _ Hw) as (Hg & Hl & Hc & Hcnt & Hm & Hh).
    repeat (split; [done|]).
    apply wait_for_data_Ok in Hw as (handles & _ & Hw).
    apply wait_loop_Ok in Hw as (k & _ & _ & _ & _ & _ & _ & _ & Hcomm).
    rewrite Hcomm. by destruct (bool_decide _).
  - unfold _wait_for_data in Hw.
    destruct (result_handles (communicator st)) as [handles|] eqn:Eh.
    + by apply wait_loop_no_raise in Hw.
    + injection Hw as <- <-. repeat split; done.
Qed.

(** A turn of the [while] loop leaves the session and the count of
    [cleanup] calls alone, however it ends. *)
Lemma collect_iteration_session self fuel batchsize st :
  match (collect_iteration self fuel batchsize st).2 with
  | Ok _ st' | Raise _ st' =>
      globals st' = globals st ∧ cleanup_calls st' = cleanup_calls st
  | Hang => True
  end.
Proof.
  unfold collect_iteration.
  pose proof (wait_outcome fuel batchsize st) as Hw.
  destruct (result_handles (communicator st)) as [handles|]; cbn.
  - destruct (_wait_for_data fuel batchsize st) as [[] st1|e st1|]; cbn; [|tauto|done].
    pose proof (assemble_outcome self handles st1) as Ha.
    destruct (assemble self handles st1) as [rd st2|e st2|]; cbn; [| |done].
    + destruct Hw as (? & _ & ? & _), Ha as (? & ? & _). split; congruence.
    + destruct Hw as (? & _ & ? & _), Ha as (_ & ? & ?). split; congruence.
  - destruct (_wait_for_data fuel batchsize st); tauto.
Qed.

Lemma collect_loop_session self turns fuel batchsize st :
  globals (collect_loop self turns fuel batchsize st).2 = globals st
  ∧ cleanup_calls (collect_loop self turns fuel batchsize st).2 = cleanup_calls st.
Proof.
  revert st. induction turns as [|turns IH]; intros st; [done|].
  rewrite collect_loop_S. destruct (active (communicator st)); [|done].
  pose proof (collect_iteration_session self fuel batchsize st) as Hit.
  destruct (collect_iteration self fuel batchsize st) as [ys [[] st'|e st'|]]; cbn in *;
    [|done..].
  specialize (IH st').
  destruct (collect_loop self turns fuel batchsize st') as [[ys' e'] st'']. cbn in *.
  destruct Hit, IH. split; congruence.
Qed.

End GeneratorFacts.

(** X12: the [for] loop of [collect] always comes to an end, and the
    assembler changes nothing of the run but the backend, the log and, at
    the very end, the counter: when it yields, the session, [active], the
    ownership flag and the handles are as before; when it raises, the whole
    communicator is as before, so a failed turn does not move the counter. *)
Theorem X12_assemble_outcome `{Backend B} (self : RecordOPXdata) handles (st : State B) :
  match assemble self handles st with
  | Ok _ st' =>
      globals st' = globals st ∧ cleanup_calls st' = cleanup_calls st
      ∧ active (communicator st') = active (communicator st)
      ∧ self_managed (communicator st') = self_managed (communicator st)
      ∧ result_handles (communicator st') = result_handles (communicator st)
  | Raise _ st' =>
      communicator st' = communicator st ∧ globals st' = globals st
      ∧ cleanup_calls st' = cleanup_calls st
  | Hang => False
  end.
Proof. apply assemble_outcome. Qed.

(** The loop is left only suspended or waiting when the [try] block is
    not left. *)
Lemma collect_loop_ending `{Backend B} (self : RecordOPXdata) (turns fuel : nat)
    (batchsize : Z) (st : State B) :
  match (collect_loop self turns fuel batchsize st).1.2 with
  | inr e => e = Suspended ∨ e = Hung
  | inl _ => True
  end.
Proof.
  revert st. induction turns as [|turns IH]; intros st; [by left|].
  rewrite collect_loop_S. destruct (active (communicator st)); [|done].
  destruct (collect_iteration self fuel batchsize st) as [ys [[] st'|e st'|]]; cbn;
    [|done|by right].
  specialize (IH st').
  by destruct (collect_loop self turns fuel batchsize st') as [[ys' e'] st''].
Qed.

(** X13: [collect] enters [cleanup] once when the generator returns or an
    exception leaves it, and not at all while the generator is suspended at a
    [yield] or waits for data, whatever the plan, the backend and the number
    of turns. *)
Theorem X13_cleanup_once `{Backend B} (self : RecordOPXdata) (turns fuel : nat)
    (batchsize : Z) (st : State B) :
  cleanup_calls (collect self turns fuel batchsize st).2
  = cleanup_calls st
    + match (collect self turns fuel batchsize st).1.2 with
      | StopIteration | Raised _ => 1
      | Suspended | Hung => 0
      end.
Proof.
  unfold collect.
  pose proof (collect_loop_session self turns fuel batchsize st) as [_ Hc].
  pose proof (collect_loop_ending self turns fuel batchsize st) as He.
  destruct (collect_loop self turns fuel batchsize st) as [[ys [pending|e]] st'];
    cbn in *.
  - pose proof (cleanup_counts st') as Hcl.
    destruct (cleanup st') as [[] st''|e' st''|]; [| |done].
    + cbn. destruct pending; cbn; lia.
    + cbn. lia.
  - destruct He as [-> | ->]; cbn; lia.
Qed.

(** X14: the turn on which the job is found stopped still delivers its
    batch: when a turn yields a dictionary and leaves [active] false, the
    generator yields that dictionary, returns on the next pull, and has then
    run [cleanup] once; nothing else is yielded however many more turns the
    consumer allows. *)
Theorem X14_last_turn `{Backend B} (self : RecordOPXdata) (turns fuel : nat)
    (batchsize : Z) (st st' : State B) ys :
  active (communicator st) = true →
  session_open (globals st) →
  collect_iteration self fuel batchsize st = (ys, Ok () st') →
  active (communicator st') = false →
  ∃ rd st'', ys = [Some rd]
    ∧ collect self (S (S turns)) fuel batchsize st = ([Some rd], StopIteration, st'')
    ∧ cleanup_calls st'' = S (cleanup_calls st)
    ∧ communicator st'' = communicator st'
    ∧ fetch_log st'' = fetch_log st'.
Proof.
  intros Hact Hopen Hit Hoff.
  pose proof (collect_iteration_session self fuel batchsize st) as Hs.
  rewrite Hit in Hs. cbn in Hs. destruct Hs as [Hg Hc].
  destruct (collect_iteration_Ok _ _ _ _ _ _ Hit) as (handles & st1 & rd & _ & _ & _ & ->).
  assert (session_open (globals st')) as Hopen' by (by rewrite Hg).
  destruct (cleanup_open st' Hopen') as (st'' & Hcl & Hcomm & _ & Hl & Hn & _).
  exists rd, st''. split; [done|]. split; [|split; [congruence|done]].
  unfold collect. rewrite collect_loop_S, Hact, Hit, collect_loop_S, Hoff. cbn.
  by rewrite Hcl.
Qed.

Lemma X14_last_turn_witness :
  let self := RecordOPXdata_init [indep "x"] in
  let st' := after_turn self 10 100 idle_start in
  ∃ rd st'', (collect_iteration self 10 100 idle_start).1 = [Some rd]
    ∧ collect self 2 10 100 idle_start = ([Some rd], StopIteration, st'')
    ∧ cleanup_calls st'' = S (cleanup_calls idle_start)
    ∧ communicator st'' = communicator st'
    ∧ fetch_log st'' = fetch_log st'.
Proof.
  intros self st'.
  apply (X14_last_turn self 0 10 100 idle_start st').
  - reflexivity.
  - split; discriminate.
  - vm_compute. reflexivity.
  - reflexivity.
Defined.

(** X15: the generator is driven by its consumer: when [n] turns in a row
    each reach their [yield], [collect] driven for [n] turns has yielded [n]
    dictionaries, stands suspended in the state of the last turn, and has not
    run [cleanup] nor touched the session. *)
Theorem X15_pulls `{Backend B} (self : RecordOPXdata) (n fuel : nat) (batchsize : Z)
    (st st' : State B) :
  nsteps (turn self fuel batchsize) n st st' →
  ∃ ys, collect self n fuel batchsize st = (ys, Suspended, st')
        ∧ length ys = n
        ∧ Forall (λ y, y ≠ None) ys
        ∧ cleanup_calls st' = cleanup_calls st
        ∧ globals st' = globals st.
Proof.
  intros Hn.
  enough (∃ ys, collect_loop self n fuel batchsize st = (ys, inr Suspended, st')
                ∧ length ys = n ∧ Forall (λ y, y ≠ None) ys) as (ys & Hl & Hlen & Hall).
  { exists ys. unfold collect. rewrite Hl. split; [done|]. split; [done|].
    split; [done|].
    pose proof (collect_loop_session self n fuel batchsize st) as [Hg Hc].
    rewrite Hl in Hg, Hc. by split. }
  induction Hn as [st|n st st1 st' [Hact (ys1 & Hit)] Hn (ys & IH & Hlen & Hall)].
  - by exists [].
  - destruct (collect_iteration_Ok _ _ _ _ _ _ Hit) as (? & ? & rd & _ & _ & _ & ->).
    exists (Some rd :: ys). rewrite collect_loop_S, Hact, Hit, IH. cbn.
    split; [done|]. split; [by rewrite Hlen|]. by constructor.
Qed.

Lemma X15_pulls_witness :
  let self := RecordOPXdata_init [indep "x"] in
  let st' := after_turn self 10 100 scalar_start in
  ∃ ys, collect self 1 10 100 scalar_start = (ys, Suspended, st')
        ∧ length ys = 1
        ∧ Forall (λ y, y ≠ None) ys
        ∧ cleanup_calls st' = cleanup_calls scalar_start
        ∧ globals st' = globals scalar_start.
Proof.
  intros self st'. apply (X15_pulls self 1 10 100 scalar_start st').
  apply nsteps_once.
  split; [reflexivity|]. eexists. vm_compute. reflexivity.
Defined.

(** ** What a turn fetches and what it stores *)

Section TurnFacts.
Context {B : Type} `{!Backend B}.
Implicit Types (st : State B) (loc : Locals) (rd : gmap string pyvalue).

(** A fetch that [get_data_from_handle] issues is of a handle that exists and
    of a range that is not empty. *)
Lemma get_data_fetches handles cnt n up_to st d st' :
  get_data_from_handle handles cnt n up_to st = Ok d st' →
  fetch_log st' = fetch_log st
  ∨ (fetch_log st' = mk_FetchCall n cnt up_to :: fetch_log st
     ∧ n ∈ handles ∧ cnt ≠ up_to).
Proof.
  intros [(_ & _ & ->)|(Hne & Hin & _ & ->)]%get_data_Ok; [by left|right].
  split; [done|]. split; [done|]. congruence.
Qed.

(** The fetches of one turn of the [for] loop. *)
Lemma collect_entry_fetches self handles cnt i ds loc st loc' st' :
  collect_entry self handles cnt i ds loc st = Ok loc' st' →
  ds ∈ specs self →
  ∃ new, fetch_log st' = new ++ fetch_log st
         ∧ length new ≤ 2
         ∧ Forall (λ f, fc_name f ∈ handles
                        ∧ fc_lo f = cnt ∧ fc_hi f = available_points loc'
                        ∧ fc_lo f ≠ fc_hi f
                        ∧ fetched_for self (fc_name f)) new.
Proof.
  intros Hrun Hds. apply collect_entry_Ok in Hrun
    as [(iname & qname & s1 & idata & s2 & qdata & Hcls & Hf & Hi & Hq & _)
       |[(_ & _ & ->)|(Hc & Hu & _ & s1 & d & Hf & Hd & _)]].
  - apply first_count_log in Hf.
    assert (fetched_for self iname ∧ fetched_for self qname) as [Hfi Hfq].
    { split; exists ds; rewrite Hcls; split; auto. }
    apply get_data_fetches in Hi as [Hi|(Hi & Hini & Hnei)],
          Hq as [Hq|(Hq & Hinq & Hneq)].
    + exists []. split; [cbn; congruence|]. split; [cbn; lia|done].
    + exists [mk_FetchCall qname cnt (available_points loc')].
      split; [cbn; congruence|]. split; [cbn; lia|]. by repeat constructor.
    + exists [mk_FetchCall iname cnt (available_points loc')].
      split; [cbn; congruence|]. split; [cbn; lia|]. by repeat constructor.
    + exists [mk_FetchCall qname cnt (available_points loc');
              mk_FetchCall iname cnt (available_points loc')].
      split; [cbn; congruence|]. split; [cbn; lia|]. by repeat constructor.
  - exists []. split; [done|]. split; [cbn; lia|done].
  - apply first_count_log in Hf.
    assert (fetched_for self (name ds)) as Hfn.
    { exists ds. split; [done|]. unfold is_ComplexOPXData in Hc.
      by destruct (cls ds). }
    apply get_data_fetches in Hd as [Hd|(Hd & Hin & Hne)].
    + exists []. split; [cbn; congruence|]. split; [cbn; lia|done].
    + exists [mk_FetchCall (name ds) cnt (available_points loc')].
      split; [cbn; congruence|]. split; [cbn; lia|]. by repeat constructor.
Qed.

Lemma collect_entries_fetches self handles cnt i l loc st loc' st' :
  collect_entries self handles cnt i l loc st = Ok loc' st' →
  (∀ ds, ds ∈ l → ds ∈ specs self) →
  ∃ new, fetch_log st' = new ++ fetch_log st
         ∧ length new ≤ 2 * length l
         ∧ Forall (λ f, fc_name f ∈ handles
                        ∧ fc_lo f = cnt ∧ fc_hi f = available_points loc'
                        ∧ fc_lo f ≠ fc_hi f
                        ∧ fetched_for self (fc_name f)) new.
Proof.
  revert i loc st. induction l as [|ds l IH]; intros i loc st; cbn.
  - intros [= <- <-] _. by exists [].
  - intros (loc1 & st1 & He & Hrest)%bind_Ok Hin.
    pose proof (collect_entries_avail _ _ _ _ _ _ _ _ _ Hrest) as Hav.
    apply IH in Hrest as (new2 & E2 & L2 & F2); [|intros ? ?; apply Hin; by right].
    apply collect_entry_fetches in He as (new1 & E1 & L1 & F1); [|apply Hin; by left].
    exists (new2 ++ new1). split; [by rewrite E2, E1, app_assoc|].
    split; [rewrite length_app; lia|]. apply Forall_app. split; [done|].
    by rewrite Hav.
Qed.

(** What one turn of the [for] loop writes: nothing, a value under the
    column's name, or, for a timed column, that and the time points. *)
Lemma collect_entry_writes self handles cnt i ds loc st loc' st' :
  collect_entry self handles cnt i ds loc st = Ok loc' st' →
  return_data loc' = return_data loc
  ∨ (∃ v, return_data loc' = <[name ds := v]> (return_data loc))
  ∨ (is_TimedOPXData ds = true
     ∧ ∃ v w, return_data loc'
              = <[time_points_name (name ds) := w]> (<[name ds := v]> (return_data loc))).
Proof.
  intros Hrun. apply collect_entry_Ok in Hrun
    as [(? & ? & s1 & idata & s2 & qdata & _ & _ & _ & _ & Hst)
       |[(_ & -> & _)|(_ & _ & _ & s1 & d & _ & _ & Htb)]]; [|by left|].
  - unfold complex_stored in Hst.
    destruct idata, qdata; try by left. destruct Hst as (z & _ & ->). right. left. eauto.
  - apply timed_block_inr in Htb as [->|(Ht & t & ->)]; right; [left|right]; eauto.
Qed.

(** A column that is neither complex nor skipped stores a value under its
    name. *)
Lemma collect_entry_stores self handles cnt i ds loc st loc' st' :
  collect_entry self handles cnt i ds loc st = Ok loc' st' →
  is_ComplexOPXData ds = false → name ds ∉ user_data self →
  is_Some (return_data loc' !! name ds).
Proof.
  intros Hrun Hc Hu. apply collect_entry_Ok in Hrun
    as [(? & ? & s1 & idata & s2 & qdata & Hcls & _)
       |[([_ Hin] & _)|(_ & _ & _ & s1 & d & _ & _ & Htb)]]; [|done|].
  - unfold is_ComplexOPXData in Hc. by rewrite Hcls in Hc.
  - apply timed_block_inr in Htb as [->|(Ht & t & ->)].
    + rewrite lookup_insert_eq. eauto.
    + destruct (decide (time_points_name (name ds) = name ds)) as [->|Hne].
      * rewrite lookup_insert_eq. eauto.
      * rewrite lookup_insert_ne, lookup_insert_eq by done. eauto.
Qed.

Lemma collect_entry_keeps_keys self handles cnt i ds loc st loc' st' k :
  collect_entry self handles cnt i ds loc st = Ok loc' st' →
  is_Some (return_data loc !! k) → is_Some (return_data loc' !! k).
Proof.
  intros [->|[(v & ->)|(_ & v & w & ->)]]%collect_entry_writes Hk; [done|..].
  - rewrite lookup_insert. by case_decide.
  - rewrite !lookup_insert. by repeat case_decide.
Qed.

Lemma collect_entry_new_keys self handles cnt i ds loc st loc' st' k :
  collect_entry self handles cnt i ds loc st = Ok loc' st' →
  is_Some (return_data loc' !! k) →
  is_Some (return_data loc !! k) ∨ k = name ds
  ∨ (is_TimedOPXData ds = true ∧ k = time_points_name (name ds)).
Proof.
  intros [->|[(v & ->)|(Ht & v & w & ->)]]%collect_entry_writes; [by left|..].
  - rewrite lookup_insert. case_decide; [by right; left|by left].
  - rewrite !lookup_insert. repeat case_decide; auto.
Qed.

Lemma collect_entries_keeps_keys self handles cnt i l loc st loc' st' k :
  collect_entries self handles cnt i l loc st = Ok loc' st' →
  is_Some (return_data loc !! k) → is_Some (return_data loc' !! k).
Proof.
  revert i loc st. induction l as [|ds l IH]; intros i loc st; cbn.
  - by intros [= <- <-].
  - intros (loc1 & st1 & He & Hrest)%bind_Ok Hk.
    eapply IH; [exact Hrest|]. by eapply collect_entry_keeps_keys.
Qed.

Lemma collect_entries_new_keys self handles cnt i l loc st loc' st' k :
  collect_entries self handles cnt i l loc st = Ok loc' st' →
  is_Some (return_data loc' !! k) →
  is_Some (return_data loc !! k)
  ∨ ∃ ds, ds ∈ l ∧ (k = name ds
                    ∨ (is_TimedOPXData ds = true ∧ k = time_points_name (name ds))).
Proof.
  revert i loc st. induction l as [|ds l IH]; intros i loc st; cbn.
  - intros [= <- <-]. by left.
  - intros (loc1 & st1 & He & Hrest)%bind_Ok Hk.
    destruct (IH _ _ _ Hrest Hk) as [Hk1|(ds' & Hin & Hds')].
    + destruct (collect_entry_new_keys _ _ _ _ _ _ _ _ _ _ He Hk1) as [?|Hnew];
        [by left|].
      right. exists ds. split; [by left|done].
    + right. exists ds'. split; [by right|done].
Qed.

End TurnFacts.

(** X16: what a turn that yields has fetched: every fetch is of a handle
    that exists, of the range from the counter before the turn to the counter
    after it, which is never empty, and for a stream that backs a column of
    the plan, the I or Q stream of a complex column or a column that is not a
    synthetic one; and there are at most two fetches per column of the
    plan. *)
Theorem X16_fetch_discipline `{Backend B} (self : RecordOPXdata) (fuel : nat)
    (batchsize : Z) (st st' : State B) ys handles :
  result_handles (communicator st) = Some handles →
  collect_iteration self fuel batchsize st = (ys, Ok () st') →
  ∃ new, fetch_log st' = new ++ fetch_log st
         ∧ length new ≤ 2 * length (specs self)
         ∧ Forall (λ f, fc_name f ∈ handles
                        ∧ fc_lo f = counter (communicator st)
                        ∧ fc_hi f = counter (communicator st')
                        ∧ fc_lo f ≠ fc_hi f
                        ∧ fetched_for self (fc_name f)) new.
Proof.
  intros Hh (handles' & st1 & rd & Hh' & Hw & Ha & _)%collect_iteration_Ok.
  rewrite Hh in Hh'. injection Hh' as <-.
  apply wait_for_data_frame in Hw as (_ & Hl & _ & Hcnt & _).
  apply assemble_Ok in Ha as (loc & st2 & Hrun & _ & ->).
  apply collect_entries_fetches in Hrun as (new & Hnew & Hlen & Hall); [|done].
  exists new. cbn. rewrite Hnew, Hl, <- Hcnt. done.
Qed.

Lemma X16_fetch_discipline_witness :
  let self := RecordOPXdata_init [ComplexOPXData "z" None "I" "Q"] in
  let st' := after_turn self 10 1 iq_start in
  ∃ new, fetch_log st' = new ++ fetch_log iq_start
         ∧ length new ≤ 2 * length (specs self)
         ∧ Forall (λ f, fc_name f ∈ ["I"; "Q"]
                        ∧ fc_lo f = counter (communicator iq_start)
                        ∧ fc_hi f = counter (communicator st')
                        ∧ fc_lo f ≠ fc_hi f
                        ∧ fetched_for self (fc_name f)) new.
Proof.
  intros self st'.
  apply (X16_fetch_discipline self 10 1 iq_start st'
           (collect_iteration self 10 1 iq_start).1 ["I"; "Q"]).
  - reflexivity.
  - vm_compute. reflexivity.
Defined.

(** X17: the keys of a dictionary that [collect] yields are names of columns
    of the plan: a turn stores values under the name of a column or under the
    time-point name of a timed column only, and [__init__] has put a column
    of that name into the plan. *)
Theorem X17_keys_in_plan `{Backend B} (decls : list DataSpec) handles
    (st st' : State B) rd k :
  let self := RecordOPXdata_init decls in
  assemble self handles st = Ok rd st' →
  is_Some (rd !! k) →
  k ∈ name <$> specs self.
Proof.
  intros self (loc & st1 & Hrun & -> & _)%assemble_Ok Hk.
  destruct (collect_entries_new_keys _ _ _ _ _ _ _ _ _ _ Hrun Hk)
    as [He|(ds & Hin & [->|[Ht ->]])].
  - cbn in He. rewrite lookup_empty in He. by destruct He.
  - by apply list_elem_of_fmap_2.
  - destruct (timed_in_specs decls ds Hin Ht) as (_ & _ & _ & Hu).
    apply user_data_in_specs in Hu.
    by apply (list_elem_of_fmap_2 name) in Hu.
Qed.

Lemma X17_keys_in_plan_witness :
  let self := RecordOPXdata_init [TimedOPXData "sig" None] in
  let rd := match assemble self ["sig"] trace_start with
            | Ok rd _ => rd
            | _ => ∅
            end in
  "sig_time_points" ∈ name <$> specs self.
Proof.
  intros self rd.
  apply (X17_keys_in_plan [TimedOPXData "sig" None] ["sig"] trace_start
           (state_after (assemble self ["sig"]) trace_start) rd "sig_time_points").
  - vm_compute. reflexivity.
  - vm_compute. eexists. reflexivity.
Defined.

(** X18: a dictionary that [collect] yields has a key for every column of
    the plan that is neither complex nor a skipped synthetic one: such a
    column stores a value under its name, be it [None], on every turn, and no
    later column removes a key. *)
Theorem X18_plain_columns_present `{Backend B} (self : RecordOPXdata) handles
    (st st' : State B) rd ds :
  assemble self handles st = Ok rd st' →
  ds ∈ specs self →
  is_ComplexOPXData ds = false →
  name ds ∉ user_data self →
  is_Some (rd !! name ds) ∧ name ds ∈ handles.
Proof.
  intros (loc & st1 & Hrun & -> & _)%assemble_Ok
    (pre & post & Hspecs)%list_elem_of_split Hc Hu.
  rewrite Hspecs in Hrun.
  apply collect_entries_app in Hrun as (loc1 & s1 & _ & Hrun). cbn in Hrun.
  apply bind_Ok in Hrun as (loc2 & s2 & He & Hrest). split.
  - eapply collect_entries_keeps_keys; [exact Hrest|].
    by eapply collect_entry_stores.
  - apply collect_entry_Ok in He as [(? & ? & ? & ? & ? & ? & Hcls & _)
                                    |[([_ ?] & _)|(_ & _ & ? & _)]]; [|done..].
    unfold is_ComplexOPXData in Hc. by rewrite Hcls in Hc.
Qed.

Lemma X18_plain_columns_present_witness :
  let self := RecordOPXdata_init [TimedOPXData "sig" None] in
  let rd := match assemble self ["sig"] trace_start with
            | Ok rd _ => rd
            | _ => ∅
            end in
  is_Some (rd !! "sig") ∧ "sig" ∈ ["sig"].
Proof.
  intros self rd.
  apply (X18_plain_columns_present self ["sig"] trace_start
           (state_after (assemble self ["sig"]) trace_start) rd (TimedOPXData "sig" None)).
  - vm_compute. reflexivity.
  - apply list_elem_of_here.
  - reflexivity.
  - cbn. intros Hin. apply list_elem_of_In in Hin. cbn in Hin.
    destruct Hin as [Heq|[]]. discriminate Heq.
Defined.

(** ** Plans without a leading backing stream *)

(** With nothing new to fetch, the loop stores nothing but [None]. *)
Lemma collect_entries_all_none `{Backend B} (self : RecordOPXdata) handles (cnt i : nat)
    (l : list DataSpec) (loc loc' : Locals) (st st' : State B) :
  collect_entries self handles cnt i l loc st = Ok loc' st' →
  available_points loc' = cnt →
  (∀ k v, return_data loc !! k = Some v → v = PyNone) →
  ∀ k v, return_data loc' !! k = Some v → v = PyNone.
Proof.
  revert i loc st. induction l as [|ds l IH]; intros i loc st; cbn.
  - by intros [= <- <-].
  - intros (loc1 & s1 & He & Hrest)%bind_Ok Hav Hinit.
    eapply IH; [exact Hrest|exact Hav|].
    pose proof (collect_entries_avail _ _ _ _ _ _ _ _ _ Hrest) as Hav1.
    apply collect_entry_nothing_new in He as [->|(_ & _ & ->)]; [done| |congruence].
    intros k v. rewrite lookup_insert. case_decide; [by intros [= <-]|apply Hinit].
Qed.

(** X19: when the plan is empty or starts with a column that [collect]
    skips, [available_points] stays at its initial zero: a turn that starts
    with the counter at zero fetches nothing, leaves the counter at zero, and
    yields a dictionary in which every value is [None], whatever the counts
    of the backend are. *)
Theorem X19_no_leading_stream `{Backend B} (self : RecordOPXdata) (fuel : nat)
    (batchsize : Z) (st st' : State B) ys :
  specs self = [] ∨ (∃ first rest, specs self = first :: rest ∧ skipped self first) →
  counter (communicator st) = 0 →
  collect_iteration self fuel batchsize st = (ys, Ok () st') →
  counter (communicator st') = 0
  ∧ fetch_log st' = fetch_log st
  ∧ ∃ rd, ys = [Some rd] ∧ ∀ k v, rd !! k = Some v → v = PyNone.
Proof.
  intros Hplan Hzero (handles & st1 & rd & Hh & Hw & Ha & ->)%collect_iteration_Ok.
  apply wait_for_data_frame in Hw as (_ & Hl & _ & Hcnt & _).
  apply assemble_Ok in Ha as (loc & st2 & Hrun & -> & ->).
  rewrite Hcnt, Hzero in Hrun.
  assert (available_points loc = 0) as Hav.
  { destruct Hplan as [Hnil|(first & rest & Hspecs & [Hc Hu])].
    - rewrite Hnil in Hrun. by injection Hrun as <- <-.
    - rewrite Hspecs in Hrun. cbn in Hrun.
      apply bind_Ok in Hrun as (loc1 & s1 & He & Hrest).
      apply collect_entries_avail in Hrest. rewrite Hrest.
      apply collect_entry_Ok in He as [(? & ? & ? & ? & ? & ? & Hcls & _)
                                      |[(_ & -> & _)|(_ & ? & _)]]; [|done..].
      unfold is_ComplexOPXData in Hc. by rewrite Hcls in Hc. }
  cbn. split; [done|]. split.
  - destruct (collect_entries_fetches _ _ _ _ _ _ _ _ _ Hrun ltac:(done))
      as (new & Hnew & _ & Hall).
    destruct new as [|f new]; [by rewrite Hnew, Hl|].
    apply Forall_cons_1 in Hall as [(_ & Hlo & Hhi & Hne & _) _]. congruence.
  - exists (return_data loc). split; [done|].
    eapply collect_entries_all_none; [exact Hrun|done|].
    intros k v. cbn. by rewrite lookup_empty.
Qed.

Lemma X19_no_leading_stream_witness :
  let st' := after_turn shadowed_plan 10 1 trace_start in
  counter (communicator st') = 0
  ∧ fetch_log st' = fetch_log trace_start
  ∧ ∃ rd, (collect_iteration shadowed_plan 10 1 trace_start).1 = [Some rd]
          ∧ ∀ k v, rd !! k = Some v → v = PyNone.
Proof.
  intros st'.
  apply (X19_no_leading_stream shadowed_plan 10 1 trace_start st').
  - right. exists (indep "sig_time_points"), [TimedOPXData "sig" None; indep "sig_time_points"].
    split; [reflexivity|]. split; [reflexivity|]. apply list_elem_of_here.
  - reflexivity.
  - vm_compute. reflexivity.
Defined.

(** ** Timed columns *)

Lemma string_length_append (a b : string) :
  String.length (a +:+ b) = String.length a + String.length b.
Proof.
  induction a as [|c a IH]; [done|].
  change (S (String.length (a +:+ b)) = S (String.length a + String.length b)).
  by rewrite IH.
Qed.

(** The name of a column differs from its time-point name. *)
Lemma time_points_name_neq (n : string) : time_points_name n ≠ n.
Proof.
  intros Heq. apply (f_equal String.length) in Heq.
  unfold time_points_name in Heq. rewrite string_length_append in Heq. cbn in Heq. lia.
Qed.

(** A two-dimensional array without rows raises [ValueError], in the
    [reshape]. *)
Lemma timed_block_no_rows ds nm (rd : gmap string pyvalue) v n :
  is_TimedOPXData ds = true → rd !! name ds = Some v → pv_shape v = Some [0; n] →
  timed_block ds nm rd = inl ValueError.
Proof. intros Ht Hv Hs. unfold timed_block. by rewrite Ht, Hv, Hs. Qed.

(** The block for timed columns ends in the exception that [timed_error]
    tells, and stores the time points where it tells none. *)
Lemma timed_block_by_shape ds nm (rd : gmap string pyvalue) v sh :
  is_TimedOPXData ds = true → rd !! name ds = Some v → pv_shape v = Some sh →
  match timed_error sh with
  | Some e => timed_block ds nm rd = inl e
  | None =>
      ∃ t, timed_block ds nm rd = inr (<[time_points_name nm := RealArray t]> rd)
           ∧ shape t = sh ∧ wf_ndarray t
           ∧ ((∃ n, sh = [n] ∧ data t = Z.of_nat <$> seq 1 n)
              ∨ (∃ r n, sh = [r; n] ∧ r ≠ 0
                        ∧ data t = concat (replicate r (Z.of_nat <$> seq 1 n))))
  end.
Proof.
  intros Ht Hv Hs. destruct sh as [|d1 [|d2 [|d3 sh]]]; cbn.
  - by apply (timed_block_0d ds nm rd v).
  - eexists. split; [by apply (timed_block_1d ds nm rd v)|]. cbn. split; [done|].
    split; [|left; eauto].
    unfold wf_ndarray, prod_dims. cbn. rewrite length_fmap, length_seq. lia.
  - destruct (decide (d1 = 0)) as [->|Hd].
    + by apply (timed_block_no_rows ds nm rd v d2).
    + eexists. split; [by apply (timed_block_2d ds nm rd v)|]. cbn. split; [done|].
      split; [|right; eauto].
      unfold wf_ndarray, prod_dims. cbn. clear.
      induction d1 as [|d1 IH]; cbn; [done|].
      rewrite length_app, IH, length_fmap, length_seq. lia.
  - apply (timed_block_rank_3 ds nm rd v (d1 :: d2 :: d3 :: sh)); [done..|cbn; lia].
Qed.

(** The two entries that the turn of a timed column leaves behind. *)
Lemma collect_entry_timed_pair `{Backend B} (self : RecordOPXdata) handles (cnt i : nat)
    (ds : DataSpec) (loc loc' : Locals) (st st' : State B) :
  collect_entry self handles cnt i ds loc st = Ok loc' st' →
  is_TimedOPXData ds = true →
  name ds ∉ user_data self →
  available_points loc' ≠ cnt →
  ∃ a t, return_data loc' !! name ds = Some (RealArray a)
         ∧ return_data loc' !! time_points_name (name ds) = Some (RealArray t)
         ∧ shape t = shape a ∧ wf_ndarray t
         ∧ ((∃ n, shape a = [n] ∧ data t = Z.of_nat <$> seq 1 n)
            ∨ (∃ r n, shape a = [r; n] ∧ r ≠ 0
                      ∧ data t = concat (replicate r (Z.of_nat <$> seq 1 n)))).
Proof.
  intros He Ht Hu Hav. apply collect_entry_Ok in He
    as [(? & ? & ? & ? & ? & ? & Hcls & _)
       |[([_ ?] & _)|(_ & _ & _ & s1 & d & _ & Hd & Htb)]]; [|done|].
  { unfold is_TimedOPXData in Ht. by rewrite Hcls in Ht. }
  apply get_data_Ok in Hd as [(? & _)|(_ & _ & -> & _)]; [done|].
  cbn in Htb.
  set (a := np_squeeze _) in Htb.
  pose proof (timed_block_by_shape ds (name ds)
                (<[name ds := RealArray a]> (return_data loc)) (RealArray a) (shape a)
                Ht (lookup_insert_eq _ _ _) eq_refl) as Hb.
  destruct (timed_error (shape a)) as [e|].
  - rewrite Hb in Htb. discriminate Htb.
  - destruct Hb as (t & Hb & Hsh & Hwf & Hrows). rewrite Hb in Htb.
    injection Htb as <-. exists a, t.
    split; [by rewrite lookup_insert_ne, lookup_insert_eq
              by apply time_points_name_neq|].
    split; [apply lookup_insert_eq|done].
Qed.

(** X20: when the turn of a timed column ends normally after new data was
    fetched, the dictionary holds the squeezed data under the column's name
    and the time points under its time-point name, as an array of the very
    shape of the data: 1 to N for N points, and R rows of 1 to N for R rows
    of N points. *)
Theorem X20_timed_pair `{Backend B} (self : RecordOPXdata) handles (cnt i : nat)
    (ds : DataSpec) (loc loc' : Locals) (st st' : State B) :
  collect_entry self handles cnt i ds loc st = Ok loc' st' →
  is_TimedOPXData ds = true →
  name ds ∉ user_data self →
  available_points loc' ≠ cnt →
  ∃ a t, return_data loc' !! name ds = Some (RealArray a)
         ∧ return_data loc' !! time_points_name (name ds) = Some (RealArray t)
         ∧ shape t = shape a ∧ wf_ndarray t
         ∧ ((∃ n, shape a = [n] ∧ data t = Z.of_nat <$> seq 1 n)
            ∨ (∃ r n, shape a = [r; n] ∧ r ≠ 0
                      ∧ data t = concat (replicate r (Z.of_nat <$> seq 1 n)))).
Proof. apply collect_entry_timed_pair. Qed.

Lemma X20_timed_pair_witness :
  let self := RecordOPXdata_init [TimedOPXData "sig" None] in
  let ds := TimedOPXData "sig" None in
  let r := collect_entry self ["sig"] 0 0 ds (mk_Locals ∅ 0) trace_start in
  let loc' := match r with Ok l _ => l | _ => mk_Locals ∅ 0 end in
  ∃ a t, return_data loc' !! name ds = Some (RealArray a)
         ∧ return_data loc' !! time_points_name (name ds) = Some (RealArray t)
         ∧ shape t = shape a ∧ wf_ndarray t
         ∧ ((∃ n, shape a = [n] ∧ data t = Z.of_nat <$> seq 1 n)
            ∨ (∃ r n, shape a = [r; n] ∧ r ≠ 0
                      ∧ data t = concat (replicate r (Z.of_nat <$> seq 1 n)))).
Proof.
  intros self ds r loc'.
  apply (X20_timed_pair self ["sig"] 0 0 ds (mk_Locals ∅ 0) loc' trace_start
           (state_after (collect_entry self ["sig"] 0 0 ds (mk_Locals ∅ 0)) trace_start)).
  - vm_compute. reflexivity.
  - reflexivity.
  - cbn. intros Hin. apply list_elem_of_In in Hin. cbn in Hin.
    destruct Hin as [Heq|[]]. discriminate Heq.
  - vm_compute. discriminate.
Defined.

(** X21: when a timed column is reached with new data, its turn ends by the
    shape of the squeezed data: no axis raises [IndexError], three axes or
    more raise [NotImplementedError], two axes without a row raise
    [ValueError]; the data has been fetched by then, and is in the log. *)
Theorem X21_timed_errors `{Backend B} (self : RecordOPXdata) handles (cnt i : nat)
    (ds : DataSpec) (loc : Locals) (st s1 : State B) avail e :
  is_TimedOPXData ds = true →
  name ds ∉ user_data self →
  name ds ∈ handles →
  first_count handles i (name ds) loc st = Ok avail s1 →
  avail ≠ cnt →
  timed_error
    (shape (np_squeeze (fetch (name ds) cnt avail
                          (wait_for_values (name ds) avail (backend s1))).1)) = Some e →
  ∃ s2, collect_entry self handles cnt i ds loc st = Raise e s2
        ∧ fetch_log s2 = mk_FetchCall (name ds) cnt avail :: fetch_log st.
Proof.
  intros Ht Hu Hin Hf Hav Herr.
  pose proof (first_count_log _ _ _ _ _ _ _ Hf) as Hl.
  unfold collect_entry. unfold is_TimedOPXData in Ht.
  destruct (cls ds) eqn:Hcls; [done| |done].
  destruct (decide (name ds ∈ user_data self)); [done|].
  destruct (decide (name ds ∉ handles)); [done|].
  unfold bind at 1. rewrite Hf. unfold bind at 1.
  unfold get_data_from_handle at 1.
  destruct (decide (avail = cnt)); [done|].
  destruct (decide (name ds ∈ handles)); [|done].
  destruct (fetch (name ds) cnt avail (wait_for_values (name ds) avail (backend s1)))
    as [a b2] eqn:Hfetch. cbn in Herr. cbn.
  pose proof (timed_block_by_shape ds (name ds)
                (<[name ds := RealArray (np_squeeze a)]> (return_data loc))
                (RealArray (np_squeeze a)) (shape (np_squeeze a))) as Hb.
  cbn in Hb. rewrite Herr in Hb. unfold bind.
  rewrite Hb; [|unfold is_TimedOPXData; by rewrite Hcls|apply lookup_insert_eq|done].
  eexists. split; [done|]. cbn. by rewrite Hl.
Qed.

Lemma X21_timed_errors_witness :
  let self := RecordOPXdata_init [TimedOPXData "sig" None] in
  let ds := TimedOPXData "sig" None in
  let s1 := state_after (first_count ["sig"] 0 "sig" (mk_Locals ∅ 0)) cube_start in
  ∃ s2, collect_entry self ["sig"] 0 0 ds (mk_Locals ∅ 0) cube_start
        = Raise NotImplementedError s2
        ∧ fetch_log s2 = mk_FetchCall "sig" 0 2 :: fetch_log cube_start.
Proof.
  intros self ds s1.
  apply (X21_timed_errors self ["sig"] 0 0 ds (mk_Locals ∅ 0) cube_start s1 2
           NotImplementedError).
  - reflexivity.
  - cbn. intros Hin. apply list_elem_of_In in Hin. cbn in Hin.
    destruct Hin as [Heq|[]]. discriminate Heq.
  - apply list_elem_of_here.
  - vm_compute. reflexivity.
  - lia.
  - vm_compute. reflexivity.
Defined.

(** ** The dictionary of a plan with distinct names *)

Lemma same_name_same_spec (l : list DataSpec) a b :
  NoDup (name <$> l) → a ∈ l → b ∈ l → name a = name b → a = b.
Proof.
  intros Hnd [i Hi]%list_elem_of_lookup [j Hj]%list_elem_of_lookup Hn.
  assert (i = j) as ->; [|congruence].
  eapply NoDup_lookup; [exact Hnd| |]; rewrite list_lookup_fmap.
  - by rewrite Hi.
  - rewrite Hj. cbn. by rewrite Hn.
Qed.

Lemma string_app_cancel_r (a b s : string) : a +:+ s = b +:+ s → a = b.
Proof.
  revert b. induction a as [|c a IH]; intros [|c' b] Heq.
  - done.
  - apply (f_equal String.length) in Heq.
    rewrite !string_length_append in Heq. cbn in Heq. lia.
  - apply (f_equal String.length) in Heq.
    rewrite !string_length_append in Heq. cbn in Heq. lia.
  - change (String c (a +:+ s) = String c' (b +:+ s)) in Heq.
    injection Heq as -> Heq. f_equal. by apply IH.
Qed.

(** A key keeps its value over the columns that are skipped or write other
    keys. *)
Lemma collect_entries_frame_skipped `{Backend B} (self : RecordOPXdata) handles
    (cnt i : nat) (l : list DataSpec) (loc loc' : Locals) (st st' : State B) k :
  collect_entries self handles cnt i l loc st = Ok loc' st' →
  (∀ e, e ∈ l → skipped self e
                ∨ (k ≠ name e
                   ∧ (is_TimedOPXData e = true → k ≠ time_points_name (name e)))) →
  return_data loc' !! k = return_data loc !! k.
Proof.
  revert i loc st. induction l as [|e l IH]; intros i loc st; cbn.
  - by intros [= <- <-].
  - intros (loc1 & st1 & He & Hrest)%bind_Ok Hk.
    rewrite (IH _ _ _ Hrest) by (intros e' He'; apply Hk; by right).
    destruct (Hk e) as [[Hc Hu]|[Hn Ht]]; [by left| |by eapply collect_entry_frame].
    apply collect_entry_Ok in He as [(? & ? & ? & ? & ? & ? & Hcls & _)
                                    |[(_ & -> & _)|(_ & ? & _)]]; [|done..].
    unfold is_ComplexOPXData in Hc. by rewrite Hcls in Hc.
Qed.

(** X22: in a plan with distinct names, a dictionary that [collect] yields on
    a turn with new data holds, for every timed column, the data under the
    column's name together with the time points under its time-point name,
    and the two arrays have the same shape: no other column of the plan
    replaces either entry. *)
Theorem X22_timed_record `{Backend B} (decls : list DataSpec) handles
    (st st' : State B) rd ds :
  let self := RecordOPXdata_init decls in
  NoDup (name <$> specs self) →
  assemble self handles st = Ok rd st' →
  ds ∈ specs self →
  is_TimedOPXData ds = true →
  counter (communicator st') ≠ counter (communicator st) →
  ∃ a t, rd !! name ds = Some (RealArray a)
         ∧ rd !! time_points_name (name ds) = Some (RealArray t)
         ∧ shape t = shape a ∧ wf_ndarray t.
Proof.
  intros self. subst self.
  intros Hnd (loc & st2 & Hrun & -> & ->)%assemble_Ok Hds Ht Hnew. cbn in Hnew.
  destruct (timed_in_specs decls ds Hds Ht) as (_ & _ & _ & Hu).
  pose proof (user_data_in_specs decls _ Hu) as Hsyn.
  assert (∀ e, e ∈ specs (RecordOPXdata_init decls) → is_TimedOPXData e = true →
               ∀ x, x ∈ specs (RecordOPXdata_init decls) →
                    name x = time_points_name (name e) →
                    x = indep (time_points_name (name e))) as Hsynth.
  { intros e He Hte x Hx Hn.
    destruct (timed_in_specs decls e He Hte) as (_ & _ & _ & Hue).
    apply user_data_in_specs in Hue. by eapply same_name_same_spec. }
  assert (name ds ∉ user_data (RecordOPXdata_init decls)) as Hplain.
  { intros Hin. apply user_data_in_specs in Hin.
    assert (ds = indep (name ds)) as Heq by (by eapply same_name_same_spec).
    rewrite Heq in Ht. discriminate Ht. }
  pose proof Hds as (pre & post & Hspecs)%list_elem_of_split.
  pose proof Hnd as Hnd'. rewrite Hspecs, fmap_app, fmap_cons in Hnd'.
  apply NoDup_app in Hnd' as (_ & _ & [Hpost_ne _]%NoDup_cons).
  rewrite Hspecs in Hrun.
  apply collect_entries_app in Hrun as (loc1 & s1 & _ & Hrun). cbn in Hrun.
  apply bind_Ok in Hrun as (loc2 & s2 & He & Hpost).
  pose proof (collect_entries_avail _ _ _ _ _ _ _ _ _ Hpost) as Hav.
  destruct (collect_entry_timed_pair _ _ _ _ _ _ _ _ _ He Ht Hplain ltac:(congruence))
    as (a & t & Ha & Htp & Hsh & Hwf & _).
  assert (∀ e, e ∈ post → e ∈ specs (RecordOPXdata_init decls)) as Hin_post.
  { intros e He'. rewrite Hspecs. apply elem_of_app. right. by right. }
  exists a, t. split; [|split; [|done]].
  - rewrite <- Ha. apply (collect_entries_frame_skipped _ _ _ _ _ _ _ _ _ _ Hpost).
    intros e He'. right. split.
    + intros Hn. apply Hpost_ne. rewrite Hn. by apply list_elem_of_fmap_2.
    + intros Hte Hn.
      pose proof (Hsynth e (Hin_post e He') Hte ds Hds Hn) as Heq.
      rewrite Heq in Ht. discriminate Ht.
  - rewrite <- Htp. apply (collect_entries_frame_skipped _ _ _ _ _ _ _ _ _ _ Hpost).
    intros e He'.
    destruct (decide (name e = time_points_name (name ds))) as [Hn|Hn].
    + left. rewrite (Hsynth ds Hds Ht e (Hin_post e He') Hn). by split.
    + right. split; [done|]. intros Hte Heq.
      apply string_app_cancel_r in Heq.
      apply Hpost_ne. rewrite Heq. by apply list_elem_of_fmap_2.
Qed.

Lemma X22_timed_record_witness :
  let self := RecordOPXdata_init [TimedOPXData "sig" None] in
  let rd := match assemble self ["sig"] trace_start with
            | Ok rd _ => rd
            | _ => ∅
            end in
  ∃ a t, rd !! "sig" = Some (RealArray a)
         ∧ rd !! time_points_name "sig" = Some (RealArray t)
         ∧ shape t = shape a ∧ wf_ndarray t.
Proof.
  intros self rd.
  apply (X22_timed_record [TimedOPXData "sig" None] ["sig"] trace_start
           (state_after (assemble self ["sig"]) trace_start) rd (TimedOPXData "sig" None)).
  - cbn. apply NoDup_cons. split; [|apply NoDup_singleton].
    intros Hin. apply list_elem_of_In in Hin. cbn in Hin.
    destruct Hin as [Heq|[]]. discriminate Heq.
  - vm_compute. reflexivity.
  - apply list_elem_of_here.
  - reflexivity.
  - vm_compute. discriminate.
Defined.
